(** * reg-actions: the comment renderer ([src/comment.ts])

    A shallow embedding of the markdown report renderer and the
    properties its specification states about it.

    JavaScript strings are sequences of UTF-16 code units, so a string is
    a list of code units here; [slice], [split], [join] and
    [encodeURIComponent] follow ECMA-262 on that representation, and
    [basename] follows Node's [path.posix.basename].  A call that can
    throw ([encodeURIComponent] raises [URIError] on a lone surrogate)
    returns a [completion].  The model comes first, then the vocabulary
    of the properties, the lemmas, and the properties themselves. *)

From Stdlib Require Import List NArith ZArith Bool Lia.
From Stdlib Require Import Strings.String Strings.Ascii Numbers.DecimalString.
Import ListNotations.

(* ===================================================================== *)
(** ** The JavaScript values the renderer handles *)
(* ===================================================================== *)

Module JS.

(** A UTF-16 code unit, [0 <= u < 65536]. *)
Definition code_unit := N.
Definition jsstring := list code_unit.

(** An ASCII string literal of the source. *)
Definition lit (s : string) : jsstring :=
  map N_of_ascii (list_ascii_of_string s).

(** The line terminator inside a template literal. *)
Definition LF : jsstring := [10%N].

(** U+2728 SPARKLES, one code unit. *)
Definition SPARKLES : jsstring := [10024%N].

(** U+1F4DD MEMO, a surrogate pair. *)
Definition MEMO : jsstring := [55357%N; 56541%N].

(** [Number::toString] at a safe integer, one of magnitude below [2^53]
    (an array length is one): its decimal digits, after a minus sign
    when negative. *)
Definition Number_toString (n : Z) : jsstring :=
  lit (NilZero.string_of_int (Z.to_int n)).

(** A [number] that is not an array length: the run id.  The renderer
    does one thing with it, a template literal prints it.  A safe
    integer is given by its value.  Any other number (a fraction, a
    greater magnitude such as [2^64], which is printed
    [18446744073709552000], [NaN], an infinity) is given by the text
    that [Number::toString] prints for it, which is all that a template
    literal shows of a number. *)
Inductive number : Type :=
| SafeInteger (n : Z) (safe : Z.ltb (Z.abs n) 9007199254740992 = true)
| OtherNumber (printed : jsstring).

(** [Number::toString], as a template literal applies it to a number. *)
Definition numberToString (x : number) : jsstring :=
  match x with
  | SafeInteger n _ => Number_toString n
  | OtherNumber printed => printed
  end.

(** [s.slice(0, n)]. *)
Definition slice0 (n : nat) (s : jsstring) : jsstring := firstn n s.

(** [s.split(sep)] for a separator of one code unit: never empty. *)
Fixpoint split (sep : code_unit) (s : jsstring) : list jsstring :=
  match s with
  | [] => [[]]
  | c :: rest =>
      if N.eqb c sep then [] :: split sep rest
      else match split sep rest with
           | seg :: segs => (c :: seg) :: segs
           | [] => [[c]]
           end
  end.

(** [a.join(sep)]. *)
Fixpoint join (sep : jsstring) (a : list jsstring) : jsstring :=
  match a with
  | [] => []
  | x :: rest =>
      match rest with
      | [] => x
      | _ :: _ => x ++ sep ++ join sep rest
      end
  end.

(** A value that may be [undefined], as an array element read past the
    end is; a template literal prints it as the word. *)
Definition template_value (v : option jsstring) : jsstring :=
  match v with
  | Some s => s
  | None => lit "undefined"
  end.

(** Truthiness of a [string | null]: [null] and the empty string are
    falsy. *)
Definition truthy (v : option jsstring) : bool :=
  match v with
  | Some (_ :: _) => true
  | Some [] => false
  | None => false
  end.

(** [s.startsWith(p)] and [s.includes(needle)]. *)
Fixpoint startsWith (p s : jsstring) : bool :=
  match p, s with
  | [], _ => true
  | _ :: _, [] => false
  | a :: p', b :: s' => N.eqb a b && startsWith p' s'
  end.

Fixpoint includes (needle s : jsstring) : bool :=
  startsWith needle s ||
  match s with
  | [] => false
  | _ :: s' => includes needle s'
  end.

(** *** Abrupt completion *)

Inductive exn : Type := URIError.

Inductive completion (A : Type) : Type :=
| Normal (a : A)
| Throw (e : exn).

Arguments Normal {A} a.
Arguments Throw {A} e.

Definition bind {A B} (c : completion A) (k : A -> completion B)
  : completion B :=
  match c with
  | Normal a => k a
  | Throw e => Throw e
  end.

(** [a.map(f)] where the callback may throw: the first throw ends it. *)
Fixpoint mapM {A B} (f : A -> completion B) (l : list A)
  : completion (list B) :=
  match l with
  | [] => Normal []
  | x :: rest =>
      bind (f x) (fun y => bind (mapM f rest) (fun ys => Normal (y :: ys)))
  end.

(** *** [encodeURIComponent] (ECMA-262, Encode) *)

Definition in_range (lo hi c : N) : bool := N.leb lo c && N.leb c hi.

Definition is_alnum (c : code_unit) : bool :=
  in_range 48 57 c || in_range 65 90 c || in_range 97 122 c.

(** The marks [- _ . ! ~ * ' ( )] are left as they are. *)
Definition is_mark (c : code_unit) : bool :=
  existsb (N.eqb c) [45; 95; 46; 33; 126; 42; 39; 40; 41]%N.

Definition unescaped (c : code_unit) : bool := is_alnum c || is_mark c.

Definition is_lead (c : code_unit) : bool := in_range 55296 56319 c.
Definition is_trail (c : code_unit) : bool := in_range 56320 57343 c.

Definition pair_to_code_point (l t : code_unit) : N :=
  ((l - 55296) * 1024 + (t - 56320) + 65536)%N.

(** The octets of a code point in UTF-8. *)
Definition utf8 (cp : N) : list N :=
  if N.ltb cp 128 then [cp]
  else if N.ltb cp 2048 then
    [N.lor 192 (N.shiftr cp 6); N.lor 128 (N.land cp 63)]
  else if N.ltb cp 65536 then
    [N.lor 224 (N.shiftr cp 12);
     N.lor 128 (N.land (N.shiftr cp 6) 63);
     N.lor 128 (N.land cp 63)]
  else
    [N.lor 240 (N.shiftr cp 18);
     N.lor 128 (N.land (N.shiftr cp 12) 63);
     N.lor 128 (N.land (N.shiftr cp 6) 63);
     N.lor 128 (N.land cp 63)].

Definition hex_digit (d : N) : code_unit :=
  if N.ltb d 10 then (48 + d)%N else (55 + d)%N.

(** ["%XX"], upper-case. *)
Definition percent (octet : N) : jsstring :=
  [37%N; hex_digit (N.shiftr octet 4); hex_digit (N.land octet 15)].

Definition escape (cp : N) : jsstring := flat_map percent (utf8 cp).

Fixpoint encodeURIComponent (s : jsstring) : completion jsstring :=
  match s with
  | [] => Normal []
  | c :: rest =>
      if unescaped c then
        bind (encodeURIComponent rest) (fun r => Normal (c :: r))
      else if is_lead c then
        match rest with
        | t :: rest' =>
            if is_trail t then
              bind (encodeURIComponent rest')
                   (fun r => Normal (escape (pair_to_code_point c t) ++ r))
            else Throw URIError
        | [] => Throw URIError
        end
      else if is_trail c then Throw URIError
      else bind (encodeURIComponent rest) (fun r => Normal (escape c ++ r))
  end.

(** [s.isWellFormed()]: every surrogate of [s] is in a pair. *)
Fixpoint isWellFormed (s : jsstring) : bool :=
  match s with
  | [] => true
  | c :: rest =>
      if is_lead c then
        match rest with
        | t :: rest' => is_trail t && isWellFormed rest'
        | [] => false
        end
      else negb (is_trail c) && isWellFormed rest
  end.

End JS.

Import JS.

Notation "x <- c ;; k" := (bind c (fun x => k))
  (at level 61, c at next level, right associativity).

(* ===================================================================== *)
(** ** [path.basename] (Node, POSIX flavour) *)
(* ===================================================================== *)

Module Path.

Definition is_sep (c : code_unit) : bool := N.eqb c 47.

Fixpoint dropWhile (p : code_unit -> bool) (s : jsstring) : jsstring :=
  match s with
  | [] => []
  | c :: rest => if p c then dropWhile p rest else s
  end.

Fixpoint takeWhile (p : code_unit -> bool) (s : jsstring) : jsstring :=
  match s with
  | [] => []
  | c :: rest => if p c then c :: takeWhile p rest else []
  end.

(** [path.posix.basename(path)].  Node scans the path from its end:
    the separators at the end are skipped, then the component runs back
    to the separator before it, or to the start of the path. *)
Definition basename (path : jsstring) : jsstring :=
  rev (takeWhile (fun c => negb (is_sep c))
                 (dropWhile is_sep (rev path))).

End Path.

Import Path.

(* ===================================================================== *)
(** ** The input types ([./compare], [./event], [./run], [comment.ts]) *)
(* ===================================================================== *)

Module Compare.
(** Modelled from the spec: the declaration of [CompareOutput], which is
    in [./compare] and not among the sources.  The comparison result of
    the spec has four sequences of item identifiers; the renderer reads
    these four fields and no other. *)
Record CompareOutput : Type := mkCompareOutput {
  passedItems : list jsstring;
  failedItems : list jsstring;
  newItems : list jsstring;
  deletedItems : list jsstring
}.
End Compare.

Module Event.
(** Modelled from the spec: the declaration of [Event], which is in
    [./event] and not among the sources.  The run context of the spec
    gives the full name of the repository; the renderer reads
    [event.repository.full_name] and no other field. *)
Record Repository : Type := mkRepository { full_name : jsstring }.
Record Event : Type := mkEvent { repository : Repository }.
End Event.

Module Run.
(** Modelled from the spec: the declaration of [Run], which is in [./run]
    and not among the sources.  The target run of the spec exposes its
    commit SHA; the renderer reads [targetRun.head_sha] and no other
    field. *)
Record Run : Type := mkRun { head_sha : jsstring }.
End Run.

(** The two input types of [comment.ts].  A run id is a [number], and
    [customReportPage] is a string or [null]. *)
Module CreateCommentWithTargetInput.
Record t : Type := mk {
  event : Event.Event;
  runId : number;
  sha : jsstring;
  regBranch : jsstring;
  artifactName : jsstring;
  targetRun : Run.Run;
  result : Compare.CompareOutput;
  date : jsstring;
  customReportPage : option jsstring
}.
End CreateCommentWithTargetInput.

Module CreateCommentWithoutTargetInput.
Record t : Type := mk {
  event : Event.Event;
  runId : number;
  result : Compare.CompareOutput;
  artifactName : jsstring;
  customReportPage : option jsstring
}.
End CreateCommentWithoutTargetInput.

(* ===================================================================== *)
(** ** [comment.ts] *)
(* ===================================================================== *)

Module Comment.

Import Compare.

(** [xs.length] as the number a template literal prints. *)
Definition length_of (xs : list jsstring) : Z := Z.of_nat (List.length xs).

Definition isSuccess (result : CompareOutput) : bool :=
  Z.eqb (length_of (failedItems result)) 0
  && Z.eqb (length_of (Compare.newItems result)) 0
  && Z.eqb (length_of (Compare.deletedItems result)) 0.

Definition badge (result : CompareOutput) : jsstring :=
  if negb (Z.eqb (length_of (failedItems result)) 0) then
    lit "![change detected](https://img.shields.io/badge/%E2%9C%94%20reg-change%20detected-orange)"
  else if negb (Z.eqb (length_of (Compare.newItems result)) 0) then
    lit "![new items](https://img.shields.io/badge/%E2%9C%94%20reg-new%20items-green)"
  else
    lit "![success](https://img.shields.io/badge/%E2%9C%94%20reg-passed-green)".

Definition createBaseUrl (owner repoName : option jsstring)
  (branch : jsstring) (runId : number) (artifactName date : jsstring)
  : jsstring :=
  lit "https://github.com/" ++ template_value owner ++ lit "/"
  ++ template_value repoName ++ lit "/blob/" ++ branch ++ lit "/"
  ++ date ++ lit "_" ++ numberToString runId ++ lit "_"
  ++ artifactName ++ lit "/".

(** The callback of [failedItems.map]. *)
Definition differenceBlock (baseUrl item : jsstring)
  : completion jsstring :=
  let base := basename item in
  filename <- encodeURIComponent base ;;
  let actual := baseUrl ++ lit "actual/" ++ filename ++ lit "?raw=true" in
  let expected :=
    baseUrl ++ lit "expected/" ++ filename ++ lit "?raw=true" in
  let diff := baseUrl ++ lit "diff/" ++ filename ++ lit "?raw=true" in
  Normal
    (lit "### `" ++ base ++ lit "`" ++ LF
     ++ lit "   " ++ LF
     ++ lit "| actual|![Actual](" ++ actual ++ lit ") |" ++ LF
     ++ lit "|--|--|" ++ LF
     ++ lit "|expected|![Expected](" ++ expected ++ lit ")|" ++ LF
     ++ lit "|difference|![Difference](" ++ diff ++ lit ")|").

Definition differences (result : CompareOutput) (baseUrl : jsstring)
  : completion jsstring :=
  if Z.eqb (length_of (failedItems result)) 0 then Normal []
  else
    blocks <- mapM (differenceBlock baseUrl) (failedItems result) ;;
    Normal
      (lit "   " ++ LF
       ++ lit "     " ++ LF
       ++ lit "### Differences" ++ LF
       ++ lit "  " ++ LF
       ++ join LF blocks ++ LF
       ++ lit "  ").

(** The callback of [newItems.map]. *)
Definition newItemBlock (baseUrl item : jsstring) : completion jsstring :=
  let base := basename item in
  filename <- encodeURIComponent base ;;
  let img := baseUrl ++ lit "actual/" ++ filename ++ lit "?raw=true" in
  Normal
    (lit "### `" ++ base ++ lit "`" ++ LF
     ++ lit "       " ++ LF
     ++ lit "|  |" ++ LF
     ++ lit "|--|" ++ LF
     ++ lit "|![NewItem](" ++ img ++ lit ")|" ++ LF
     ++ lit "       ").

Definition newItems (result : CompareOutput) (baseUrl : jsstring)
  : completion jsstring :=
  if Z.eqb (length_of (Compare.newItems result)) 0 then Normal []
  else
    blocks <- mapM (newItemBlock baseUrl) (Compare.newItems result) ;;
    Normal
      (lit "   " ++ LF
       ++ lit "     " ++ LF
       ++ lit "### New Items" ++ LF
       ++ lit "  " ++ LF
       ++ join LF blocks ++ LF
       ++ lit "  ").

(** The callback of [deletedItems.map]. *)
Definition deletedItemBlock (baseUrl item : jsstring)
  : completion jsstring :=
  let base := basename item in
  filename <- encodeURIComponent base ;;
  let img := baseUrl ++ lit "expected/" ++ filename ++ lit "?raw=true" in
  Normal
    (lit "### `" ++ base ++ lit "`" ++ LF
     ++ lit "       " ++ LF
     ++ lit "|  |" ++ LF
     ++ lit "|--|" ++ LF
     ++ lit "|![DeleteItem](" ++ img ++ lit ")|" ++ LF
     ++ lit "       ").

Definition deletedItems (result : CompareOutput) (baseUrl : jsstring)
  : completion jsstring :=
  if Z.eqb (length_of (Compare.deletedItems result)) 0 then Normal []
  else
    blocks <- mapM (deletedItemBlock baseUrl) (Compare.deletedItems result) ;;
    Normal
      (lit "   " ++ LF
       ++ lit "   " ++ LF
       ++ lit "### Deleted Items" ++ LF
       ++ lit "  " ++ LF
       ++ join LF blocks ++ LF
       ++ lit "  ").

(** The [successOrFailMessage] constant of [createCommentWithTarget]. *)
Definition successOrFailMessage (result : CompareOutput)
  (artifactName report : jsstring) : jsstring :=
  if isSuccess result then
    badge result ++ LF
    ++ LF
    ++ lit "## ArtifactName: `" ++ artifactName ++ lit "`" ++ LF
    ++ lit "  " ++ LF
    ++ SPARKLES ++ SPARKLES
    ++ lit " That's perfect, there is no visual difference! "
    ++ SPARKLES ++ SPARKLES ++ LF
    ++ lit "Check out the report [here](" ++ report ++ lit ")." ++ LF
    ++ lit "    "
  else
    badge result ++ LF
    ++ LF
    ++ lit "## ArtifactName: `" ++ artifactName ++ lit "`" ++ LF
    ++ LF
    ++ lit "Check out the report [here](" ++ report ++ lit ")." ++ LF
    ++ lit "    ".

Definition createCommentWithTarget (input : CreateCommentWithTargetInput.t)
  : completion jsstring :=
  let '(CreateCommentWithTargetInput.mk event runId currentHash regBranch
          artifactName targetRun result date customReportPage) := input in
  let parts := split 47%N (Event.full_name (Event.repository event)) in
  let owner := nth_error parts 0 in
  let repoName := nth_error parts 1 in
  let targetHash := Run.head_sha targetRun in
  let currentHashShort := slice0 7 currentHash in
  let targetHashShort := slice0 7 targetHash in
  let baseUrl :=
    createBaseUrl owner repoName regBranch runId artifactName date in
  let report :=
    if truthy customReportPage then
      lit "   " ++ LF
      ++ lit "Check out the report [here]("
      ++ template_value customReportPage ++ lit ")."
    else [] in
  let successOrFailMessage :=
    successOrFailMessage result artifactName report in
  differencesText <- differences result baseUrl ;;
  newItemsText <- newItems result baseUrl ;;
  deletedItemsText <- deletedItems result baseUrl ;;
  Normal
    (lit "This report was generated by comparing [" ++ currentHashShort
     ++ lit "](https://github.com/" ++ template_value owner ++ lit "/"
     ++ template_value repoName ++ lit "/commit/" ++ currentHash
     ++ lit ") with [" ++ targetHashShort
     ++ lit "](https://github.com/" ++ template_value owner ++ lit "/"
     ++ template_value repoName ++ lit "/commit/" ++ targetHash
     ++ lit ")." ++ LF
     ++ lit "If you would like to check difference, please check [here](https://github.com/"
     ++ template_value owner ++ lit "/" ++ template_value repoName
     ++ lit "/compare/" ++ targetHashShort ++ lit ".."
     ++ currentHashShort ++ lit ")." ++ LF
     ++ lit "  " ++ LF
     ++ successOrFailMessage ++ LF
     ++ lit "  " ++ LF
     ++ lit "| item    | count                         |" ++ LF
     ++ lit "|:--------|:-----------------------------:|" ++ LF
     ++ lit "| pass    | "
     ++ Number_toString (length_of (passedItems result))
     ++ lit "  |" ++ LF
     ++ lit "| change  | "
     ++ Number_toString (length_of (failedItems result))
     ++ lit "  |" ++ LF
     ++ lit "| new     | "
     ++ Number_toString (length_of (Compare.newItems result))
     ++ lit "     |" ++ LF
     ++ lit "| delete  | "
     ++ Number_toString (length_of (Compare.deletedItems result))
     ++ lit " |" ++ LF
     ++ LF
     ++ lit "<details>" ++ LF
     ++ lit "<summary>" ++ MEMO ++ lit " Report</summary>" ++ LF
     ++ differencesText ++ LF
     ++ newItemsText ++ LF
     ++ deletedItemsText ++ LF
     ++ lit "</details>" ++ LF).

Definition createCommentWithoutTarget
  (input : CreateCommentWithoutTargetInput.t) : jsstring :=
  let result := CreateCommentWithoutTargetInput.result input in
  let artifactName := CreateCommentWithoutTargetInput.artifactName input in
  let customReportPage :=
    CreateCommentWithoutTargetInput.customReportPage input in
  let report :=
    if truthy customReportPage then
      lit "   " ++ LF
      ++ lit "  Check out the report [here]("
      ++ template_value customReportPage ++ lit ")."
    else [] in
  lit "## ArtifactName: `" ++ artifactName ++ lit "`" ++ LF
  ++ lit "  " ++ LF
  ++ lit "Failed to find a target artifact." ++ LF
  ++ lit "All items will be treated as new items and will be used as expected data for the next time."
  ++ LF
  ++ LF
  ++ lit "![target not found](https://img.shields.io/badge/%E2%9C%94%20reg-new%20items-blue)"
  ++ LF
  ++ report ++ LF
  ++ LF
  ++ lit "| item    | count                         |" ++ LF
  ++ lit "|:--------|:-----------------------------:|" ++ LF
  ++ lit "| new     | "
  ++ Number_toString (length_of (Compare.newItems result))
  ++ lit "     |" ++ LF
  ++ lit "  ".

End Comment.

(* ===================================================================== *)
(** ** The vocabulary of the properties *)
(* ===================================================================== *)

Import Compare Comment.

(** [s] begins with [p]; [needle] occurs in [s]. *)
Definition Prefix (p s : jsstring) : Prop := exists post, s = p ++ post.

Definition Contains (needle s : jsstring) : Prop :=
  exists pre post, s = pre ++ needle ++ post.

(** [s] ends with [x]. *)
Definition Suffix (x s : jsstring) : Prop := exists pre, s = pre ++ x.

(** The sentence shown when nothing changed. *)
Definition celebration : jsstring :=
  SPARKLES ++ SPARKLES
  ++ lit " That's perfect, there is no visual difference! "
  ++ SPARKLES ++ SPARKLES.

Definition passedBadge : jsstring :=
  lit "![success](https://img.shields.io/badge/%E2%9C%94%20reg-passed-green)".

Definition newItemsBadge : jsstring :=
  lit "![new items](https://img.shields.io/badge/%E2%9C%94%20reg-new%20items-green)".

Definition changeDetectedBadge : jsstring :=
  lit "![change detected](https://img.shields.io/badge/%E2%9C%94%20reg-change%20detected-orange)".

(** The table of the with-target report: header, alignment row, then the
    four counts, closed by the blank line before the report block. *)
Definition summaryTable (pass change new delete : nat) : jsstring :=
  lit "| item    | count                         |" ++ LF
  ++ lit "|:--------|:-----------------------------:|" ++ LF
  ++ lit "| pass    | " ++ Number_toString (Z.of_nat pass) ++ lit "  |" ++ LF
  ++ lit "| change  | " ++ Number_toString (Z.of_nat change) ++ lit "  |" ++ LF
  ++ lit "| new     | " ++ Number_toString (Z.of_nat new) ++ lit "     |" ++ LF
  ++ lit "| delete  | " ++ Number_toString (Z.of_nat delete) ++ lit " |" ++ LF
  ++ LF
  ++ lit "<details>" ++ LF.

(** The owner and repository name the entry point reads off the full name
    of the repository, as its templates print them, and the base URL it
    hands to the three section renderers. *)
Definition ownerOf (input : CreateCommentWithTargetInput.t) : jsstring :=
  template_value
    (nth_error
       (split 47%N
          (Event.full_name
             (Event.repository (CreateCommentWithTargetInput.event input))))
       0).

Definition repoNameOf (input : CreateCommentWithTargetInput.t) : jsstring :=
  template_value
    (nth_error
       (split 47%N
          (Event.full_name
             (Event.repository (CreateCommentWithTargetInput.event input))))
       1).

Definition baseUrlOf (input : CreateCommentWithTargetInput.t) : jsstring :=
  lit "https://github.com/" ++ ownerOf input ++ lit "/"
  ++ repoNameOf input ++ lit "/blob/"
  ++ CreateCommentWithTargetInput.regBranch input ++ lit "/"
  ++ CreateCommentWithTargetInput.date input ++ lit "_"
  ++ numberToString (CreateCommentWithTargetInput.runId input) ++ lit "_"
  ++ CreateCommentWithTargetInput.artifactName input ++ lit "/".

(** An image embed: alt text, then base URL, folder, encoded file name
    and the raw flag. *)
Definition embed (alt baseUrl folder filename : jsstring) : jsstring :=
  lit "![" ++ alt ++ lit "](" ++ baseUrl ++ folder ++ filename
  ++ lit "?raw=true" ++ lit ")".

(** The block of one failed item: its title and its three embeds. *)
Definition differenceBlockOf (baseUrl base filename : jsstring) : jsstring :=
  lit "### `" ++ base ++ lit "`" ++ LF
  ++ lit "   " ++ LF
  ++ lit "| actual|" ++ embed (lit "Actual") baseUrl (lit "actual/") filename
  ++ lit " |" ++ LF
  ++ lit "|--|--|" ++ LF
  ++ lit "|expected|"
  ++ embed (lit "Expected") baseUrl (lit "expected/") filename
  ++ lit "|" ++ LF
  ++ lit "|difference|"
  ++ embed (lit "Difference") baseUrl (lit "diff/") filename ++ lit "|".

(** The blocks of a section, each one followed by a line break. *)
Definition blockLines (blocks : list jsstring) : jsstring :=
  List.concat (map (fun block => block ++ LF) blocks).

(** The Differences section around its blocks. *)
Definition differencesSection (blocks : list jsstring) : jsstring :=
  lit "   " ++ LF
  ++ lit "     " ++ LF
  ++ lit "### Differences" ++ LF
  ++ lit "  " ++ LF
  ++ blockLines blocks
  ++ lit "  ".

(** A markdown link. *)
Definition link (text target : jsstring) : jsstring :=
  lit "[" ++ text ++ lit "](" ++ target ++ lit ")".

Definition commitUrl (owner repoName hash : jsstring) : jsstring :=
  lit "https://github.com/" ++ owner ++ lit "/" ++ repoName
  ++ lit "/commit/" ++ hash.

Definition compareUrl (owner repoName base head : jsstring) : jsstring :=
  lit "https://github.com/" ++ owner ++ lit "/" ++ repoName
  ++ lit "/compare/" ++ base ++ lit ".." ++ head.

(** The two opening lines of the with-target report. *)
Definition comparisonSentence (owner repoName currentHash targetHash
                                 : jsstring) : jsstring :=
  lit "This report was generated by comparing "
  ++ link (firstn 7 currentHash) (commitUrl owner repoName currentHash)
  ++ lit " with "
  ++ link (firstn 7 targetHash) (commitUrl owner repoName targetHash)
  ++ lit "." ++ LF
  ++ lit "If you would like to check difference, please check "
  ++ link (lit "here")
       (compareUrl owner repoName (firstn 7 targetHash)
          (firstn 7 currentHash))
  ++ lit "." ++ LF.

(** The sentence that links the report page. *)
Definition reportSentence (target : jsstring) : jsstring :=
  lit "Check out the report " ++ link (lit "here") target ++ lit ".".


(** The items whose base names the renderer encodes. *)
Definition renderedItems (r : CompareOutput) : list jsstring :=
  failedItems r ++ Compare.newItems r ++ Compare.deletedItems r.

(** In [s] the code unit [c] is never followed by [d], and is not the
    last one: no text that starts with [c], [d] can begin in [s], nor
    begin at its end and go on in what is appended. *)
Fixpoint guarded (c d : code_unit) (s : jsstring) : bool :=
  match s with
  | [] => true
  | x :: rest =>
      (negb (N.eqb x c)
       || match rest with
          | [] => false
          | y :: _ => negb (N.eqb y d)
          end)
      && guarded c d rest
  end.

(** Upper-case D, the initial of two of the section headers. *)
Definition LETTER_D : code_unit := 68%N.





(** The text of a report page, empty when there is none. *)
Definition pageText (page : option jsstring) : jsstring :=
  match page with
  | Some t => t
  | None => []
  end.

(* ===================================================================== *)
(** ** Sample inputs *)
(* ===================================================================== *)

Definition sampleEvent : Event.Event :=
  Event.mkEvent (Event.mkRepository (lit "owner/repo")).

Definition sampleTargetRun : Run.Run :=
  Run.mkRun (lit "fedcba9876543210fedcba9876543210fedcba98").

Definition sampleRunId : number := SafeInteger 4242 eq_refl.

Definition sampleHash : jsstring :=
  lit "0123456789abcdef0123456789abcdef01234567".

(** Two passed, two failed, three new items and one deleted item. *)
Definition mixedResult : CompareOutput :=
  mkCompareOutput
    [lit "p/a.png"; lit "b.png"]
    [lit "dir/sub/My File.png"; lit "x/y.png"]
    [lit "n1.png"; lit "n/n2.png"; lit "n3"]
    [lit "d/d1.png"].

Definition mixedInput : CreateCommentWithTargetInput.t :=
  CreateCommentWithTargetInput.mk sampleEvent sampleRunId sampleHash
    (lit "reg_actions") (lit "home") sampleTargetRun mixedResult
    (lit "2023-01-01") (Some (lit "https://example.com/report")).

(** One passed item and nothing else, for the artifact ["home"]. *)
Definition passedOnlyResult : CompareOutput :=
  mkCompareOutput [lit "a.png"] [] [] [].

Definition passedOnlyInput : CreateCommentWithTargetInput.t :=
  CreateCommentWithTargetInput.mk sampleEvent sampleRunId sampleHash
    (lit "reg_actions") (lit "home") sampleTargetRun passedOnlyResult
    (lit "2023-01-01") None.

(** A report page that is a string, and empty. *)
Definition emptyPageInput : CreateCommentWithTargetInput.t :=
  CreateCommentWithTargetInput.mk sampleEvent sampleRunId sampleHash
    (lit "reg_actions") (lit "home") sampleTargetRun mixedResult
    (lit "2023-01-01") (Some []).

(** A failed item whose name is a lone surrogate. *)
Definition loneSurrogateInput : CreateCommentWithTargetInput.t :=
  CreateCommentWithTargetInput.mk sampleEvent sampleRunId sampleHash
    (lit "reg_actions") (lit "home") sampleTargetRun
    (mkCompareOutput [] [[55296%N]] [] [])
    (lit "2023-01-01") None.

Definition coldStartInput : CreateCommentWithoutTargetInput.t :=
  CreateCommentWithoutTargetInput.mk sampleEvent sampleRunId mixedResult
    (lit "home") (Some (lit "https://example.com/report")).

(** The same artifact, page and number of new items as [coldStartInput];
    another event, run and other lists. *)
Definition otherColdStartInput : CreateCommentWithoutTargetInput.t :=
  CreateCommentWithoutTargetInput.mk
    (Event.mkEvent (Event.mkRepository (lit "someone/else")))
    (SafeInteger 7 eq_refl)
    (mkCompareOutput [] [] [lit "u.png"; lit "v.png"; lit "w.png"] [])
    (lit "home") (Some (lit "https://example.com/report")).

(** [coldStartInput] under another event and run. *)
Definition rerunColdStartInput : CreateCommentWithoutTargetInput.t :=
  CreateCommentWithoutTargetInput.mk
    (Event.mkEvent (Event.mkRepository (lit "someone/else")))
    (SafeInteger 7 eq_refl)
    mixedResult (lit "home") (Some (lit "https://example.com/report")).



(** [mixedInput] in the run [2^64], a number that is no safe integer
    and that [Number::toString] prints with three zeros at its end. *)
Definition hugeRunInput : CreateCommentWithTargetInput.t :=
  CreateCommentWithTargetInput.mk sampleEvent
    (OtherNumber (lit "18446744073709552000")) sampleHash
    (lit "reg_actions") (lit "home") sampleTargetRun mixedResult
    (lit "2023-01-01") (Some (lit "https://example.com/report")).

(* ===================================================================== *)
(** ** More vocabulary: the other sections, the report block, paths *)
(* ===================================================================== *)

(** The block of one new item: its title and its one embed. *)
Definition newItemBlockOf (baseUrl base filename : jsstring) : jsstring :=
  lit "### `" ++ base ++ lit "`" ++ LF
  ++ lit "       " ++ LF
  ++ lit "|  |" ++ LF
  ++ lit "|--|" ++ LF
  ++ lit "|" ++ embed (lit "NewItem") baseUrl (lit "actual/") filename
  ++ lit "|" ++ LF
  ++ lit "       ".

(** The block of one deleted item. *)
Definition deletedItemBlockOf (baseUrl base filename : jsstring)
  : jsstring :=
  lit "### `" ++ base ++ lit "`" ++ LF
  ++ lit "       " ++ LF
  ++ lit "|  |" ++ LF
  ++ lit "|--|" ++ LF
  ++ lit "|" ++ embed (lit "DeleteItem") baseUrl (lit "expected/") filename
  ++ lit "|" ++ LF
  ++ lit "       ".

(** The New Items and Deleted Items sections around their blocks. *)
Definition newItemsSection (blocks : list jsstring) : jsstring :=
  lit "   " ++ LF
  ++ lit "     " ++ LF
  ++ lit "### New Items" ++ LF
  ++ lit "  " ++ LF
  ++ blockLines blocks
  ++ lit "  ".

Definition deletedItemsSection (blocks : list jsstring) : jsstring :=
  lit "   " ++ LF
  ++ lit "   " ++ LF
  ++ lit "### Deleted Items" ++ LF
  ++ lit "  " ++ LF
  ++ blockLines blocks
  ++ lit "  ".

(** The report block around the texts of the three sections. *)
Definition reportBlock (differencesText newItemsText deletedItemsText
                          : jsstring) : jsstring :=
  lit "<details>" ++ LF
  ++ lit "<summary>" ++ MEMO ++ lit " Report</summary>" ++ LF
  ++ differencesText ++ LF
  ++ newItemsText ++ LF
  ++ deletedItemsText ++ LF
  ++ lit "</details>" ++ LF.

(** The badge of the report without a target. *)
Definition targetNotFoundBadge : jsstring :=
  lit "![target not found](https://img.shields.io/badge/%E2%9C%94%20reg-new%20items-blue)".

(** A string whose code units are all below [2^16], as every string of
    the language is. *)
Definition isString (s : jsstring) : bool :=
  forallb (fun c => N.ltb c 65536) s.

(** What a percent-encoded component is made of: the unreserved
    characters and the percent sign. *)
Definition isComponentUnit (c : code_unit) : bool :=
  unescaped c || N.eqb c 37.

(** A run of path separators. *)
Definition isSeparators (s : jsstring) : bool := forallb is_sep s.

(** [input] with another full name of the repository. *)
Definition withFullName (fullName : jsstring)
  (input : CreateCommentWithTargetInput.t) : CreateCommentWithTargetInput.t :=
  CreateCommentWithTargetInput.mk
    (Event.mkEvent (Event.mkRepository fullName))
    (CreateCommentWithTargetInput.runId input)
    (CreateCommentWithTargetInput.sha input)
    (CreateCommentWithTargetInput.regBranch input)
    (CreateCommentWithTargetInput.artifactName input)
    (CreateCommentWithTargetInput.targetRun input)
    (CreateCommentWithTargetInput.result input)
    (CreateCommentWithTargetInput.date input)
    (CreateCommentWithTargetInput.customReportPage input).

(** [input] with another branch, run and date: the fields that only the
    base URL of the images reads. *)
Definition withStorage (regBranch : jsstring) (runId : number)
  (date : jsstring)
  (input : CreateCommentWithTargetInput.t) : CreateCommentWithTargetInput.t :=
  CreateCommentWithTargetInput.mk
    (CreateCommentWithTargetInput.event input)
    runId
    (CreateCommentWithTargetInput.sha input)
    regBranch
    (CreateCommentWithTargetInput.artifactName input)
    (CreateCommentWithTargetInput.targetRun input)
    (CreateCommentWithTargetInput.result input)
    date
    (CreateCommentWithTargetInput.customReportPage input).

(** [input] with another comparison result. *)
Definition withResult (result : CompareOutput)
  (input : CreateCommentWithTargetInput.t) : CreateCommentWithTargetInput.t :=
  CreateCommentWithTargetInput.mk
    (CreateCommentWithTargetInput.event input)
    (CreateCommentWithTargetInput.runId input)
    (CreateCommentWithTargetInput.sha input)
    (CreateCommentWithTargetInput.regBranch input)
    (CreateCommentWithTargetInput.artifactName input)
    (CreateCommentWithTargetInput.targetRun input)
    result
    (CreateCommentWithTargetInput.date input)
    (CreateCommentWithTargetInput.customReportPage input).

(** One deleted item and nothing else. *)
Definition deletedOnlyInput : CreateCommentWithTargetInput.t :=
  CreateCommentWithTargetInput.mk sampleEvent sampleRunId sampleHash
    (lit "reg_actions") (lit "home") sampleTargetRun
    (mkCompareOutput [lit "kept.png"] [] [] [lit "old/gone.png"])
    (lit "2023-01-01") None.

(** A cold start without report page. *)
Definition plainColdStartInput : CreateCommentWithoutTargetInput.t :=
  CreateCommentWithoutTargetInput.mk sampleEvent sampleRunId mixedResult
    (lit "home") None.

(** [mixedResult] with its items moved to other directories. *)
Definition movedResult : CompareOutput :=
  mkCompareOutput
    [lit "q.png"; lit "elsewhere/r.png"]
    [lit "My File.png"; lit "other/dir/y.png"]
    [lit "deep/down/n1.png"; lit "n2.png"; lit "m/n3/"]
    [lit "d1.png"].
(* ===================================================================== *)
(** ** Substrings *)
(* ===================================================================== *)

Lemma startsWith_Prefix (p s : jsstring) :
  startsWith p s = true <-> Prefix p s.
Proof.
  revert s; induction p as [|a p IH]; intros s; simpl.
  - split; [intros _; exists s; reflexivity | trivial].
  - destruct s as [|b s].
    + split; [discriminate | intros [post E]; discriminate E].
    + rewrite andb_true_iff, N.eqb_eq, IH. split.
      * intros [-> [post ->]]. exists post. reflexivity.
      * intros [post E]. injection E as -> ->. split; [reflexivity|].
        exists post. reflexivity.
Qed.

Lemma includes_Contains (needle s : jsstring) :
  includes needle s = true <-> Contains needle s.
Proof.
  induction s as [|b s IH]; simpl.
  - rewrite orb_false_r, startsWith_Prefix. split.
    + intros [post E]. exists [], post. exact E.
    + intros [pre [post E]]. destruct pre; [|discriminate E].
      exists post. exact E.
  - rewrite orb_true_iff, startsWith_Prefix, IH. split.
    + intros [[post E] | [pre [post E]]].
      * exists [], post. exact E.
      * exists (b :: pre), post. rewrite E. reflexivity.
    + intros [pre [post E]]. destruct pre as [|c pre].
      * left. exists post. exact E.
      * right. injection E as _ E. exists pre, post. exact E.
Qed.

Lemma Prefix_nil (s : jsstring) : Prefix [] s.
Proof. exists s. reflexivity. Qed.

Lemma Prefix_refl (s : jsstring) : Prefix s s.
Proof. exists []. symmetry. apply app_nil_r. Qed.

Lemma Prefix_here (a s : jsstring) : Prefix a (a ++ s).
Proof. exists s. reflexivity. Qed.

Lemma Prefix_app (a p s : jsstring) : Prefix p s -> Prefix (a ++ p) (a ++ s).
Proof. intros [post ->]. exists post. apply app_assoc. Qed.

Lemma Contains_Prefix (n s : jsstring) : Prefix n s -> Contains n s.
Proof. intros [post ->]. exists [], post. reflexivity. Qed.

Lemma Contains_skip (a n s : jsstring) : Contains n s -> Contains n (a ++ s).
Proof.
  intros [pre [post ->]]. exists (a ++ pre), post.
  apply app_assoc.
Qed.

Lemma Contains_trans (a b c : jsstring) :
  Contains a b -> Contains b c -> Contains a c.
Proof.
  intros [p1 [q1 ->]] [p2 [q2 ->]]. exists (p2 ++ p1), (q1 ++ q2).
  now rewrite <- !app_assoc.
Qed.

Lemma Suffix_refl (s : jsstring) : Suffix s s.
Proof. exists []. reflexivity. Qed.

Lemma Suffix_skip (a x s : jsstring) : Suffix x s -> Suffix x (a ++ s).
Proof. intros [pre ->]. exists (a ++ pre). apply app_assoc. Qed.

(** A needle written with the pieces of the template is found by walking
    the right-nested concatenation. *)
Ltac prefix_here :=
  lazymatch goal with
  | |- Prefix [] _ => apply Prefix_nil
  | |- Prefix ?a ?a => apply Prefix_refl
  | |- Prefix ?a (?a ++ _) => apply Prefix_here
  | |- Prefix (?a ++ _) (?a ++ _) => apply Prefix_app; prefix_here
  end.

Ltac contains_walk :=
  first [ apply Contains_Prefix; prefix_here
        | apply Contains_skip; contains_walk ].

Ltac suffix_walk :=
  first [ exact (Suffix_refl _) | apply Suffix_skip; suffix_walk ].

Ltac find_needle :=
  apply includes_Contains; rewrite <- ?app_assoc; contains_walk.

(* ===================================================================== *)
(** ** Normal completions *)
(* ===================================================================== *)

Lemma Normal_inj {A} (a b : A) : Normal a = Normal b -> a = b.
Proof. intros H. injection H as H. exact H. Qed.

Lemma bind_Normal {A B} (c : completion A) (k : A -> completion B) (b : B) :
  bind c k = Normal b -> exists a, c = Normal a /\ k a = Normal b.
Proof. destruct c as [a|e]; simpl; [eauto | discriminate]. Qed.

Lemma mapM_Normal {A B} (f : A -> completion B) (l : list A) (ys : list B) :
  mapM f l = Normal ys -> Forall2 (fun x y => f x = Normal y) l ys.
Proof.
  revert ys; induction l as [|x l IH]; simpl; intros ys H.
  - injection H as <-. constructor.
  - apply bind_Normal in H as [y [Hy H]].
    apply bind_Normal in H as [ys' [Hys H]].
    injection H as <-. constructor; auto.
Qed.

Lemma mapM_total {A B} (f : A -> completion B) (l : list A) :
  Forall (fun x => exists y, f x = Normal y) l ->
  exists ys, mapM f l = Normal ys.
Proof.
  induction 1 as [|x l [y Hy] _ [ys Hys]]; simpl.
  - eauto.
  - rewrite Hy, Hys. simpl. eauto.
Qed.

Lemma length_of_zero (xs : list jsstring) :
  Z.eqb (length_of xs) 0 = true <-> xs = [].
Proof.
  unfold length_of. rewrite Z.eqb_eq. destruct xs; simpl; split;
    intros; try reflexivity; try discriminate; lia.
Qed.

(** What a normal return of [createCommentWithTarget] is made of. *)
Ltac invert_comment H :=
  unfold createCommentWithTarget in H; cbn beta iota zeta in H;
  let d := fresh "differencesText" in
  let n := fresh "newItemsText" in
  let x := fresh "deletedItemsText" in
  let Hd := fresh "Hdifferences" in
  let Hn := fresh "HnewItems" in
  let Hx := fresh "HdeletedItems" in
  apply bind_Normal in H as [d [Hd H]];
  apply bind_Normal in H as [n [Hn H]];
  apply bind_Normal in H as [x [Hx H]];
  apply Normal_inj in H; subst.

(* ===================================================================== *)
(** ** The three section renderers *)
(* ===================================================================== *)

Lemma length_of_nonzero (xs : list jsstring) :
  xs <> [] -> Z.eqb (length_of xs) 0 = false.
Proof.
  intros H. destruct (Z.eqb (length_of xs) 0) eqn:E; [|reflexivity].
  apply length_of_zero in E. contradiction.
Qed.

Lemma differenceBlock_Normal (baseUrl item block : jsstring) :
  differenceBlock baseUrl item = Normal block ->
  exists filename,
    encodeURIComponent (basename item) = Normal filename
    /\ block = differenceBlockOf baseUrl (basename item) filename.
Proof.
  unfold differenceBlock. cbn zeta. intros H.
  apply bind_Normal in H as [filename [Hf H]]. apply Normal_inj in H.
  exists filename. split; [exact Hf|]. subst block.
  unfold differenceBlockOf, embed.
  change (lit "| actual|![Actual](")
    with (lit "| actual|" ++ lit "![" ++ lit "Actual" ++ lit "](").
  change (lit ") |") with (lit ")" ++ lit " |").
  change (lit "|expected|![Expected](")
    with (lit "|expected|" ++ lit "![" ++ lit "Expected" ++ lit "](").
  change (lit ")|") with (lit ")" ++ lit "|").
  change (lit "|difference|![Difference](")
    with (lit "|difference|" ++ lit "![" ++ lit "Difference" ++ lit "](").
  rewrite <- !app_assoc. reflexivity.
Qed.

(** Blocks joined by line breaks, then a line break: every block is
    followed by one. *)
Lemma join_lines (blocks : list jsstring) :
  blocks <> [] -> join LF blocks ++ LF = blockLines blocks.
Proof.
  unfold blockLines.
  induction blocks as [|b rest IH]; [contradiction|]. intros _.
  destruct rest as [|b' rest'].
  - simpl. now rewrite app_nil_r.
  - change (join LF (b :: b' :: rest'))
      with (b ++ LF ++ join LF (b' :: rest')).
    rewrite <- !app_assoc, IH by discriminate.
    cbn [map List.concat]. now rewrite <- !app_assoc.
Qed.

Lemma Forall2_nonempty {A B} (R : A -> B -> Prop) (l : list A)
  (l' : list B) :
  Forall2 R l l' -> l <> [] -> l' <> [].
Proof.
  intros H Hne E. subst l'. inversion H; subst. now apply Hne.
Qed.

Lemma differences_Normal (r : CompareOutput) (baseUrl text : jsstring) :
  differences r baseUrl = Normal text ->
  failedItems r <> [] ->
  exists blocks,
    Forall2
      (fun item block =>
         exists filename,
           encodeURIComponent (basename item) = Normal filename
           /\ block = differenceBlockOf baseUrl (basename item) filename)
      (failedItems r) blocks
    /\ text = differencesSection blocks.
Proof.
  unfold differences. intros H Hne.
  rewrite (length_of_nonzero _ Hne) in H.
  apply bind_Normal in H as [blocks [Hb H]]. apply Normal_inj in H.
  apply mapM_Normal in Hb.
  exists blocks. split.
  - revert Hb. apply Forall2_impl. intros item block.
    apply differenceBlock_Normal.
  - subst text. unfold differencesSection.
    rewrite <- (join_lines blocks (Forall2_nonempty _ _ _ Hb Hne)).
    now rewrite <- !app_assoc.
Qed.

Lemma Contains_join (sep block : jsstring) (blocks : list jsstring) :
  In block blocks -> Contains block (join sep blocks).
Proof.
  induction blocks as [|b rest IH]; [intros []|].
  intros [-> | Hin]; simpl.
  - destruct rest; [exists [], []; now rewrite app_nil_r|].
    apply Contains_Prefix, Prefix_here.
  - destruct rest as [|b' rest']; [destruct Hin|].
    apply Contains_skip, Contains_skip, IH, Hin.
Qed.

Lemma Forall2_In_l {A B} (R : A -> B -> Prop) (l : list A) (l' : list B)
  (x : A) :
  Forall2 R l l' -> In x l -> exists y, In y l' /\ R x y.
Proof.
  induction 1 as [|a b l l' Hab _ IH]; [intros []|].
  intros [-> | Hin].
  - exists b. split; [left; reflexivity | exact Hab].
  - destruct (IH Hin) as [y [Hy Hxy]]. exists y. split; [right|]; assumption.
Qed.

Lemma newItemBlock_Normal (baseUrl item block : jsstring) :
  newItemBlock baseUrl item = Normal block ->
  exists filename,
    encodeURIComponent (basename item) = Normal filename
    /\ Contains (embed (lit "NewItem") baseUrl (lit "actual/") filename) block.
Proof.
  unfold newItemBlock. cbn zeta. intros H.
  apply bind_Normal in H as [filename [Hf H]]. apply Normal_inj in H.
  exists filename. split; [exact Hf|]. subst block. unfold embed.
  change (lit "|![NewItem](")
    with (lit "|" ++ lit "![" ++ lit "NewItem" ++ lit "](").
  change (lit ")|") with (lit ")" ++ lit "|").
  rewrite <- ?app_assoc. contains_walk.
Qed.

Lemma deletedItemBlock_Normal (baseUrl item block : jsstring) :
  deletedItemBlock baseUrl item = Normal block ->
  exists filename,
    encodeURIComponent (basename item) = Normal filename
    /\ Contains
         (embed (lit "DeleteItem") baseUrl (lit "expected/") filename) block.
Proof.
  unfold deletedItemBlock. cbn zeta. intros H.
  apply bind_Normal in H as [filename [Hf H]]. apply Normal_inj in H.
  exists filename. split; [exact Hf|]. subst block. unfold embed.
  change (lit "|![DeleteItem](")
    with (lit "|" ++ lit "![" ++ lit "DeleteItem" ++ lit "](").
  change (lit ")|") with (lit ")" ++ lit "|").
  rewrite <- ?app_assoc. contains_walk.
Qed.

Lemma differenceBlockOf_embeds (baseUrl base filename : jsstring) :
  let block := differenceBlockOf baseUrl base filename in
  Contains (embed (lit "Actual") baseUrl (lit "actual/") filename) block
  /\ Contains (embed (lit "Expected") baseUrl (lit "expected/") filename) block
  /\ Contains (embed (lit "Difference") baseUrl (lit "diff/") filename) block.
Proof.
  cbn zeta. unfold differenceBlockOf.
  repeat split; contains_walk.
Qed.

(** An item of a rendered list has its block in the section text. *)
Lemma section_block (f : jsstring -> completion jsstring)
  (items : list jsstring) (item : jsstring) (blocks : list jsstring) :
  mapM f items = Normal blocks -> In item items ->
  exists block,
    f item = Normal block /\ Contains block (join LF blocks).
Proof.
  intros Hb Hin. apply mapM_Normal in Hb.
  destruct (Forall2_In_l _ _ _ item Hb Hin) as [block [Hblock Hf]].
  exists block. split; [exact Hf|].
  apply Contains_join, Hblock.
Qed.

Lemma In_nonempty {A} (x : A) (l : list A) : In x l -> l <> [].
Proof. intros H ->. exact H. Qed.

Lemma differences_item (r : CompareOutput) (baseUrl text item : jsstring) :
  differences r baseUrl = Normal text -> In item (failedItems r) ->
  exists filename,
    encodeURIComponent (basename item) = Normal filename
    /\ Contains (differenceBlockOf baseUrl (basename item) filename) text.
Proof.
  unfold differences. intros H Hin.
  rewrite (length_of_nonzero _ (In_nonempty _ _ Hin)) in H.
  apply bind_Normal in H as [blocks [Hb H]]. apply Normal_inj in H.
  subst text.
  destruct (section_block _ _ _ _ Hb Hin) as [block [Hblock Hc]].
  apply differenceBlock_Normal in Hblock as [filename [Hf ->]].
  exists filename. split; [exact Hf|].
  apply (Contains_trans _ _ _ Hc). contains_walk.
Qed.

Lemma newItems_item (r : CompareOutput) (baseUrl text item : jsstring) :
  Comment.newItems r baseUrl = Normal text -> In item (Compare.newItems r) ->
  exists filename,
    encodeURIComponent (basename item) = Normal filename
    /\ Contains (embed (lit "NewItem") baseUrl (lit "actual/") filename) text.
Proof.
  unfold Comment.newItems. intros H Hin.
  rewrite (length_of_nonzero _ (In_nonempty _ _ Hin)) in H.
  apply bind_Normal in H as [blocks [Hb H]]. apply Normal_inj in H.
  subst text.
  destruct (section_block _ _ _ _ Hb Hin) as [block [Hblock Hc]].
  apply newItemBlock_Normal in Hblock as [filename [Hf He]].
  exists filename. split; [exact Hf|].
  apply (Contains_trans _ _ _ He), (Contains_trans _ _ _ Hc). contains_walk.
Qed.

Lemma deletedItems_item (r : CompareOutput) (baseUrl text item : jsstring) :
  Comment.deletedItems r baseUrl = Normal text ->
  In item (Compare.deletedItems r) ->
  exists filename,
    encodeURIComponent (basename item) = Normal filename
    /\ Contains
         (embed (lit "DeleteItem") baseUrl (lit "expected/") filename) text.
Proof.
  unfold Comment.deletedItems. intros H Hin.
  rewrite (length_of_nonzero _ (In_nonempty _ _ Hin)) in H.
  apply bind_Normal in H as [blocks [Hb H]]. apply Normal_inj in H.
  subst text.
  destruct (section_block _ _ _ _ Hb Hin) as [block [Hblock Hc]].
  apply deletedItemBlock_Normal in Hblock as [filename [Hf He]].
  exists filename. split; [exact Hf|].
  apply (Contains_trans _ _ _ He), (Contains_trans _ _ _ Hc). contains_walk.
Qed.

(* ===================================================================== *)
(** ** Successes *)
(* ===================================================================== *)

Lemma isSuccess_iff (r : CompareOutput) :
  isSuccess r = true <->
  failedItems r = [] /\ Compare.newItems r = [] /\ Compare.deletedItems r = [].
Proof.
  unfold isSuccess. rewrite !andb_true_iff, !length_of_zero. tauto.
Qed.

Lemma badge_of_success (r : CompareOutput) :
  isSuccess r = true -> badge r = passedBadge.
Proof.
  intros H. apply isSuccess_iff in H as [Hf [Hn _]].
  unfold badge. rewrite Hf, Hn. reflexivity.
Qed.

Lemma sections_of_success (r : CompareOutput) (baseUrl : jsstring) :
  isSuccess r = true ->
  differences r baseUrl = Normal []
  /\ Comment.newItems r baseUrl = Normal []
  /\ Comment.deletedItems r baseUrl = Normal [].
Proof.
  intros H. apply isSuccess_iff in H as [Hf [Hn Hd]].
  unfold differences, Comment.newItems, Comment.deletedItems.
  rewrite Hf, Hn, Hd. auto.
Qed.

(* ===================================================================== *)
(** ** Splitting the full name of the repository *)
(* ===================================================================== *)

Lemma split_nonempty (sep : code_unit) (s : jsstring) : split sep s <> [].
Proof.
  destruct s as [|c s]; simpl; [discriminate|].
  destruct (N.eqb c sep); [discriminate|].
  destruct (split sep s); discriminate.
Qed.

Lemma split_without_separator (sep : code_unit) (s : jsstring) :
  ~ In sep s -> split sep s = [s].
Proof.
  induction s as [|c s IH]; simpl; intros H; [reflexivity|].
  destruct (N.eqb_spec c sep) as [->|_]; [exfalso; apply H; now left|].
  rewrite IH; [reflexivity|]. intros Hin. apply H. now right.
Qed.

Lemma split_at_first_separator (sep : code_unit) (a b : jsstring) :
  ~ In sep a -> split sep (a ++ sep :: b) = a :: split sep b.
Proof.
  induction a as [|c a IH]; simpl; intros H.
  - now rewrite N.eqb_refl.
  - destruct (N.eqb_spec c sep) as [->|_]; [exfalso; apply H; now left|].
    rewrite IH; [reflexivity|]. intros Hin. apply H. now right.
Qed.

(* ===================================================================== *)
(** ** Texts in which a header cannot begin *)
(* ===================================================================== *)

Lemma guarded_app (c d : code_unit) (a b : jsstring) :
  guarded c d a = true -> guarded c d b = true ->
  guarded c d (a ++ b) = true.
Proof.
  intros Ha Hb. induction a as [|x rest IH]; [exact Hb|].
  simpl in Ha |- *. apply andb_true_iff in Ha as [Hx Hrest].
  rewrite (IH Hrest), andb_true_r.
  destruct rest as [|y rest']; [|exact Hx].
  simpl. rewrite orb_false_r in Hx. rewrite Hx. reflexivity.
Qed.

Lemma guarded_without (c d : code_unit) (t : jsstring) :
  ~ In c t -> guarded c d t = true.
Proof.
  induction t as [|x rest IH]; [reflexivity|].
  intros H. simpl. rewrite IH by (intros Hin; apply H; now right).
  destruct (N.eqb_spec x c) as [->|_]; [exfalso; apply H; now left|].
  reflexivity.
Qed.

Lemma guarded_excludes (c d : code_unit) (n s : jsstring) :
  guarded c d s = true -> includes (c :: d :: n) s = false.
Proof.
  induction s as [|x rest IH]; [reflexivity|].
  simpl. intros H. apply andb_true_iff in H as [Hx Hrest].
  rewrite (IH Hrest), orb_false_r.
  destruct (N.eqb_spec c x) as [->|_]; [|reflexivity].
  rewrite N.eqb_refl in Hx. simpl in Hx.
  destruct rest as [|y rest']; [discriminate Hx|].
  simpl. rewrite N.eqb_sym. apply negb_true_iff in Hx. now rewrite Hx.
Qed.

Lemma In_firstn (c : code_unit) (n : nat) (t : jsstring) :
  In c (firstn n t) -> In c t.
Proof.
  revert t; induction n as [|n IH]; intros [|x t]; simpl; try tauto.
  intros [->|H]; [now left | right; now apply IH].
Qed.

Lemma In_split (c sep : code_unit) (t piece : jsstring) :
  In piece (split sep t) -> In c piece -> In c t.
Proof.
  revert piece; induction t as [|x t IH]; intros piece; simpl.
  - intros [<-|[]] [].
  - destruct (N.eqb x sep).
    + intros [<-|H] Hc; [destruct Hc|]. right. exact (IH _ H Hc).
    + destruct (split sep t) as [|seg segs] eqn:E.
      * intros [<-|[]] [->|[]]. now left.
      * intros [<-|H] Hc.
        -- destruct Hc as [->|Hc]; [now left|].
           right. apply (IH seg); [now left | exact Hc].
        -- right. apply (IH piece); [now right | exact Hc].
Qed.

Lemma template_value_split_without (c sep : code_unit) (t : jsstring)
  (k : nat) :
  ~ In c t -> ~ In c (lit "undefined") ->
  ~ In c (template_value (nth_error (split sep t) k)).
Proof.
  intros Ht Hu. destruct (nth_error (split sep t) k) as [piece|] eqn:E;
    [|exact Hu].
  simpl. intros Hc. apply Ht.
  exact (In_split c sep t piece (nth_error_In _ _ E) Hc).
Qed.

Lemma digits_of_uint (d : Decimal.uint) (c : code_unit) :
  In c (lit (NilEmpty.string_of_uint d)) -> (48 <= c <= 57)%N.
Proof.
  unfold lit.
  induction d; simpl; try tauto;
    (intros [<-|H]; [vm_compute; split; discriminate | exact (IHd H)]).
Qed.

(** A number is printed with digits, after a minus sign when negative. *)
Lemma Number_toString_units (n : Z) (c : code_unit) :
  In c (Number_toString n) -> c = 45%N \/ (48 <= c <= 57)%N.
Proof.
  unfold Number_toString, NilZero.string_of_int.
  assert (Hu : forall d, In c (lit (NilZero.string_of_uint d)) ->
                         (48 <= c <= 57)%N).
  { intros d. unfold NilZero.string_of_uint.
    destruct d;
      [intros [<-|[]]; vm_compute; split; discriminate
      | apply digits_of_uint ..]. }
  destruct (Z.to_int n) as [d|d].
  - intros H. right. exact (Hu d H).
  - intros [<-|H]; [now left | right; exact (Hu d H)].
Qed.

Lemma Number_toString_plain (n : Z) (c : code_unit) :
  (57 < c)%N -> ~ In c (Number_toString n).
Proof.
  intros Hc H. apply Number_toString_units in H as [->|H]; lia.
Qed.

Lemma without_unit (c : code_unit) (t : jsstring) :
  existsb (N.eqb c) t = false -> ~ In c t.
Proof.
  intros H Hin.
  assert (E : existsb (N.eqb c) t = true).
  { apply existsb_exists. exists c. split; [exact Hin | apply N.eqb_refl]. }
  congruence.
Qed.

(** The pieces of a template, one at a time: a literal is computed, a
    field is covered by its hypothesis. *)
Ltac without_piece :=
  first
    [ assumption
    | apply without_unit; vm_compute; reflexivity
    | apply Number_toString_plain; reflexivity
    | apply template_value_split_without;
        [assumption | apply without_unit; vm_compute; reflexivity]
    | let H := fresh in intros H; apply In_firstn in H; contradiction ].

Ltac guarded_pieces :=
  repeat apply guarded_app;
  first [ vm_compute; reflexivity | apply guarded_without; without_piece ].

(** The report without a target has no upper-case D of its own. *)
Lemma without_target_text_guarded (d : code_unit)
  (input : CreateCommentWithoutTargetInput.t) :
  (d = 101 \/ d = 105)%N ->
  ~ In LETTER_D (CreateCommentWithoutTargetInput.artifactName input) ->
  ~ In LETTER_D
      (pageText (CreateCommentWithoutTargetInput.customReportPage input)) ->
  guarded LETTER_D d (createCommentWithoutTarget input) = true.
Proof.
  destruct input as [ev run r name crp].
  cbn [CreateCommentWithoutTargetInput.artifactName
       CreateCommentWithoutTargetInput.customReportPage].
  intros Hd Hname Hpage. unfold createCommentWithoutTarget.
  cbn [CreateCommentWithoutTargetInput.artifactName
       CreateCommentWithoutTargetInput.customReportPage
       CreateCommentWithoutTargetInput.result].
  destruct crp as [[|x page]|]; cbn [truthy template_value pageText] in *;
    destruct Hd as [-> | ->]; unfold LETTER_D in *; guarded_pieces.
Qed.

(* ===================================================================== *)
(** ** When the renderer returns *)
(* ===================================================================== *)

Lemma unescaped_not_surrogate (c : code_unit) :
  unescaped c = true -> is_lead c = false /\ is_trail c = false.
Proof.
  unfold unescaped, is_alnum, is_mark, is_lead, is_trail, in_range.
  cbn [existsb].
  rewrite !orb_true_iff, !andb_true_iff, !andb_false_iff, !N.leb_le,
    !N.leb_gt, !N.eqb_eq.
  lia.
Qed.

Lemma bind_returns {A B} (c : completion A) (k : A -> completion B) :
  (forall a, exists b, k a = Normal b) ->
  ((exists b, bind c k = Normal b) <-> (exists a, c = Normal a)).
Proof.
  intros Hk. destruct c as [a|e]; simpl.
  - split; [eauto | intros _; apply Hk].
  - split; intros [x H]; discriminate H.
Qed.

Lemma encodeURIComponent_returns_pair (s : jsstring) :
  ((exists r, encodeURIComponent s = Normal r) <-> isWellFormed s = true)
  /\ (forall c,
        (exists r, encodeURIComponent (c :: s) = Normal r)
        <-> isWellFormed (c :: s) = true).
Proof.
  induction s as [|x s [IHs IHx]].
  - split; [simpl; split; eauto|].
    intros c. simpl.
    destruct (unescaped c) eqn:U.
    + destruct (unescaped_not_surrogate c U) as [-> ->]. simpl.
      split; eauto.
    + destruct (is_lead c); [split; [intros [r H]|]; discriminate|].
      destruct (is_trail c); simpl; split; eauto; try discriminate.
      intros [r H]; discriminate.
  - split; [apply IHx|].
    intros c. cbn [encodeURIComponent isWellFormed].
    destruct (unescaped c) eqn:U.
    + destruct (unescaped_not_surrogate c U) as [-> ->].
      rewrite bind_returns by eauto. exact (IHx x).
    + destruct (is_lead c).
      * destruct (is_trail x); cbn [andb].
        -- rewrite bind_returns by eauto. exact IHs.
        -- split; [intros [r H]|]; discriminate.
      * destruct (is_trail c); cbn [negb andb].
        -- split; [intros [r H]|]; discriminate.
        -- rewrite bind_returns by eauto. exact (IHx x).
Qed.

(** [encodeURIComponent] returns exactly on well-formed strings. *)
Lemma encodeURIComponent_returns (s : jsstring) :
  (exists r, encodeURIComponent s = Normal r) <-> isWellFormed s = true.
Proof. apply encodeURIComponent_returns_pair. Qed.

Lemma mapM_returns {A B} (f : A -> completion B) (l : list A) :
  (exists ys, mapM f l = Normal ys)
  <-> Forall (fun x => exists y, f x = Normal y) l.
Proof.
  split; [|apply mapM_total].
  intros [ys H]. apply mapM_Normal in H.
  induction H as [|x y l ys Hxy _ IH]; constructor; eauto.
Qed.

(** A section returns exactly when each of its items has a well-formed
    base name. *)
Lemma section_returns (block : jsstring -> completion jsstring)
  (wrap : list jsstring -> jsstring) (items : list jsstring) :
  (forall item,
      (exists b, block item = Normal b)
      <-> isWellFormed (basename item) = true) ->
  (exists text,
      (if Z.eqb (length_of items) 0 then Normal []
       else blocks <- mapM block items ;; Normal (wrap blocks))
      = Normal text)
  <-> Forall (fun item => isWellFormed (basename item) = true) items.
Proof.
  intros Hblock. destruct items as [|i items].
  - simpl. split; [constructor | eauto].
  - rewrite length_of_nonzero by discriminate.
    rewrite bind_returns by eauto. rewrite mapM_returns.
    split; apply Forall_impl; intros item; apply Hblock.
Qed.

Lemma differenceBlock_returns (baseUrl item : jsstring) :
  (exists b, differenceBlock baseUrl item = Normal b)
  <-> isWellFormed (basename item) = true.
Proof.
  unfold differenceBlock. cbn zeta. rewrite bind_returns by eauto.
  apply encodeURIComponent_returns.
Qed.

Lemma newItemBlock_returns (baseUrl item : jsstring) :
  (exists b, newItemBlock baseUrl item = Normal b)
  <-> isWellFormed (basename item) = true.
Proof.
  unfold newItemBlock. cbn zeta. rewrite bind_returns by eauto.
  apply encodeURIComponent_returns.
Qed.

Lemma deletedItemBlock_returns (baseUrl item : jsstring) :
  (exists b, deletedItemBlock baseUrl item = Normal b)
  <-> isWellFormed (basename item) = true.
Proof.
  unfold deletedItemBlock. cbn zeta. rewrite bind_returns by eauto.
  apply encodeURIComponent_returns.
Qed.

Lemma differences_returns (r : CompareOutput) (baseUrl : jsstring) :
  (exists text, differences r baseUrl = Normal text)
  <-> Forall (fun item => isWellFormed (basename item) = true)
        (failedItems r).
Proof.
  unfold differences.
  apply (section_returns (differenceBlock baseUrl)).
  apply differenceBlock_returns.
Qed.

Lemma newItems_returns (r : CompareOutput) (baseUrl : jsstring) :
  (exists text, Comment.newItems r baseUrl = Normal text)
  <-> Forall (fun item => isWellFormed (basename item) = true)
        (Compare.newItems r).
Proof.
  unfold Comment.newItems.
  apply (section_returns (newItemBlock baseUrl)).
  apply newItemBlock_returns.
Qed.

Lemma deletedItems_returns (r : CompareOutput) (baseUrl : jsstring) :
  (exists text, Comment.deletedItems r baseUrl = Normal text)
  <-> Forall (fun item => isWellFormed (basename item) = true)
        (Compare.deletedItems r).
Proof.
  unfold Comment.deletedItems.
  apply (section_returns (deletedItemBlock baseUrl)).
  apply deletedItemBlock_returns.
Qed.

(* ===================================================================== *)
(** ** The blocks of new and deleted items *)
(* ===================================================================== *)

Lemma newItemBlock_text (baseUrl item block : jsstring) :
  newItemBlock baseUrl item = Normal block ->
  exists filename,
    encodeURIComponent (basename item) = Normal filename
    /\ block = newItemBlockOf baseUrl (basename item) filename.
Proof.
  unfold newItemBlock. cbn zeta. intros H.
  apply bind_Normal in H as [filename [Hf H]]. apply Normal_inj in H.
  exists filename. split; [exact Hf|]. subst block.
  unfold newItemBlockOf, embed.
  change (lit "|![NewItem](")
    with (lit "|" ++ lit "![" ++ lit "NewItem" ++ lit "](").
  change (lit ")|") with (lit ")" ++ lit "|").
  rewrite <- !app_assoc. reflexivity.
Qed.

Lemma deletedItemBlock_text (baseUrl item block : jsstring) :
  deletedItemBlock baseUrl item = Normal block ->
  exists filename,
    encodeURIComponent (basename item) = Normal filename
    /\ block = deletedItemBlockOf baseUrl (basename item) filename.
Proof.
  unfold deletedItemBlock. cbn zeta. intros H.
  apply bind_Normal in H as [filename [Hf H]]. apply Normal_inj in H.
  exists filename. split; [exact Hf|]. subst block.
  unfold deletedItemBlockOf, embed.
  change (lit "|![DeleteItem](")
    with (lit "|" ++ lit "![" ++ lit "DeleteItem" ++ lit "](").
  change (lit ")|") with (lit ")" ++ lit "|").
  rewrite <- !app_assoc. reflexivity.
Qed.

Lemma newItems_Normal (r : CompareOutput) (baseUrl text : jsstring) :
  Comment.newItems r baseUrl = Normal text ->
  Compare.newItems r <> [] ->
  exists blocks,
    Forall2
      (fun item block =>
         exists filename,
           encodeURIComponent (basename item) = Normal filename
           /\ block = newItemBlockOf baseUrl (basename item) filename)
      (Compare.newItems r) blocks
    /\ text = newItemsSection blocks.
Proof.
  unfold Comment.newItems. intros H Hne.
  rewrite (length_of_nonzero _ Hne) in H.
  apply bind_Normal in H as [blocks [Hb H]]. apply Normal_inj in H.
  apply mapM_Normal in Hb.
  exists blocks. split.
  - revert Hb. apply Forall2_impl. intros item block.
    apply newItemBlock_text.
  - subst text. unfold newItemsSection.
    rewrite <- (join_lines blocks (Forall2_nonempty _ _ _ Hb Hne)).
    now rewrite <- !app_assoc.
Qed.

Lemma deletedItems_Normal (r : CompareOutput) (baseUrl text : jsstring) :
  Comment.deletedItems r baseUrl = Normal text ->
  Compare.deletedItems r <> [] ->
  exists blocks,
    Forall2
      (fun item block =>
         exists filename,
           encodeURIComponent (basename item) = Normal filename
           /\ block = deletedItemBlockOf baseUrl (basename item) filename)
      (Compare.deletedItems r) blocks
    /\ text = deletedItemsSection blocks.
Proof.
  unfold Comment.deletedItems. intros H Hne.
  rewrite (length_of_nonzero _ Hne) in H.
  apply bind_Normal in H as [blocks [Hb H]]. apply Normal_inj in H.
  apply mapM_Normal in Hb.
  exists blocks. split.
  - revert Hb. apply Forall2_impl. intros item block.
    apply deletedItemBlock_text.
  - subst text. unfold deletedItemsSection.
    rewrite <- (join_lines blocks (Forall2_nonempty _ _ _ Hb Hne)).
    now rewrite <- !app_assoc.
Qed.

(** The text of a section is empty exactly when its list is. *)
Ltac section_empty_iff H :=
  match type of H with
  | (if Z.eqb (length_of ?items) 0 then _ else _) = Normal ?text =>
      let i := fresh "item" in
      let rest := fresh "rest" in
      destruct items as [|i rest];
      [ simpl in H; apply Normal_inj in H; subst text; tauto
      | rewrite length_of_nonzero in H by discriminate;
        let blocks := fresh "blocks" in
        let E := fresh "E" in
        apply bind_Normal in H as [blocks [_ H]]; apply Normal_inj in H;
        subst text; split; [|discriminate];
        intros E; apply app_eq_nil in E as [E _]; discriminate E ]
  end.

Lemma differences_empty_iff (r : CompareOutput) (baseUrl text : jsstring) :
  differences r baseUrl = Normal text ->
  (text = [] <-> failedItems r = []).
Proof. unfold differences. intros H. section_empty_iff H. Qed.

Lemma newItems_empty_iff (r : CompareOutput) (baseUrl text : jsstring) :
  Comment.newItems r baseUrl = Normal text ->
  (text = [] <-> Compare.newItems r = []).
Proof. unfold Comment.newItems. intros H. section_empty_iff H. Qed.

Lemma deletedItems_empty_iff (r : CompareOutput) (baseUrl text : jsstring) :
  Comment.deletedItems r baseUrl = Normal text ->
  (text = [] <-> Compare.deletedItems r = []).
Proof. unfold Comment.deletedItems. intros H. section_empty_iff H. Qed.

(* ===================================================================== *)
(** ** Base names *)
(* ===================================================================== *)

Lemma takeWhile_dropWhile (p : code_unit -> bool) (s : jsstring) :
  takeWhile p s ++ dropWhile p s = s.
Proof.
  induction s as [|c s IH]; [reflexivity|].
  simpl. destruct (p c); [simpl; now rewrite IH | reflexivity].
Qed.

Lemma takeWhile_all (p : code_unit -> bool) (s : jsstring) :
  forallb p (takeWhile p s) = true.
Proof.
  induction s as [|c s IH]; [reflexivity|].
  simpl. destruct (p c) eqn:E; [simpl; now rewrite E | reflexivity].
Qed.

Lemma dropWhile_head (p : code_unit -> bool) (s : jsstring) :
  match dropWhile p s with
  | [] => True
  | c :: _ => p c = false
  end.
Proof.
  induction s as [|c s IH]; [exact I|].
  simpl. destruct (p c) eqn:E; [exact IH | exact E].
Qed.

Lemma takeWhile_app_stop (p : code_unit -> bool) (a rest : jsstring) :
  forallb p a = true ->
  match rest with [] => True | c :: _ => p c = false end ->
  takeWhile p (a ++ rest) = a.
Proof.
  intros Ha Hrest. induction a as [|x a IH]; simpl.
  - destruct rest as [|c rest]; [reflexivity|]. simpl. now rewrite Hrest.
  - simpl in Ha. apply andb_true_iff in Ha as [Hx Ha].
    rewrite Hx, (IH Ha). reflexivity.
Qed.

Lemma dropWhile_app_all (p : code_unit -> bool) (a rest : jsstring) :
  forallb p a = true -> dropWhile p (a ++ rest) = dropWhile p rest.
Proof.
  intros Ha. induction a as [|x a IH]; [reflexivity|].
  simpl in Ha |- *. apply andb_true_iff in Ha as [Hx Ha].
  rewrite Hx. exact (IH Ha).
Qed.

Lemma dropWhile_none (p : code_unit -> bool) (s : jsstring) :
  match s with [] => True | c :: _ => p c = false end ->
  dropWhile p s = s.
Proof. destruct s as [|c s]; [reflexivity|]. simpl. now intros ->. Qed.

Lemma forallb_rev (p : code_unit -> bool) (s : jsstring) :
  forallb p (rev s) = forallb p s.
Proof.
  induction s as [|c s IH]; [reflexivity|].
  simpl. rewrite forallb_app, IH. simpl. rewrite andb_true_r.
  apply andb_comm.
Qed.

Lemma not_separator (name : jsstring) :
  ~ In 47%N name <-> forallb (fun c => negb (is_sep c)) name = true.
Proof.
  rewrite forallb_forall. unfold is_sep. split.
  - intros H c Hc. apply negb_true_iff, N.eqb_neq. intros ->. exact (H Hc).
  - intros H Hin. specialize (H _ Hin). now rewrite N.eqb_refl in H.
Qed.

Lemma is_sep_47 (c : code_unit) : is_sep c = true -> c = 47%N.
Proof. apply N.eqb_eq. Qed.

(** Every path is its base name, after a directory and a separator or
    after nothing, and before separators only. *)
Lemma basename_decompose (path : jsstring) :
  exists dir seps,
    isSeparators seps = true
    /\ (path = basename path ++ seps
        \/ path = dir ++ 47%N :: basename path ++ seps).
Proof.
  unfold basename.
  set (l := rev path).
  set (m := dropWhile is_sep l).
  set (q := fun c => negb (is_sep c)).
  assert (El : l = takeWhile is_sep l ++ takeWhile q m ++ dropWhile q m).
  { rewrite (takeWhile_dropWhile q m). symmetry.
    apply takeWhile_dropWhile. }
  assert (Ep : path = rev l) by (symmetry; apply rev_involutive).
  rewrite El in Ep. rewrite !rev_app_distr in Ep.
  pose proof (dropWhile_head q m) as Hhead.
  destruct (dropWhile q m) as [|c rest].
  - exists [], (rev (takeWhile is_sep l)). split.
    + unfold isSeparators. rewrite forallb_rev. apply takeWhile_all.
    + left. exact Ep.
  - exists (rev rest), (rev (takeWhile is_sep l)). split.
    + unfold isSeparators. rewrite forallb_rev. apply takeWhile_all.
    + right. unfold q in Hhead. apply negb_false_iff, is_sep_47 in Hhead.
      subst c. simpl in Ep. rewrite <- !app_assoc in Ep. exact Ep.
Qed.

Lemma basename_without_separator (path : jsstring) :
  ~ In 47%N (basename path).
Proof.
  unfold basename. rewrite <- In_rev. apply not_separator.
  apply takeWhile_all.
Qed.

Lemma basename_of_name (name seps : jsstring) :
  ~ In 47%N name -> isSeparators seps = true ->
  basename (name ++ seps) = name.
Proof.
  intros Hn Hs. unfold basename. rewrite rev_app_distr.
  rewrite dropWhile_app_all by (rewrite forallb_rev; exact Hs).
  apply not_separator in Hn. rewrite <- forallb_rev in Hn.
  rewrite dropWhile_none.
  - rewrite <- (app_nil_r (rev name)) at 1.
    rewrite takeWhile_app_stop by (exact Hn || exact I).
    apply rev_involutive.
  - destruct (rev name) as [|c t]; [exact I|].
    simpl in Hn. apply andb_true_iff in Hn as [Hc _].
    now apply negb_true_iff in Hc.
Qed.

Lemma basename_of_path (dir name seps : jsstring) :
  ~ In 47%N name -> name <> [] -> isSeparators seps = true ->
  basename (dir ++ 47%N :: name ++ seps) = name.
Proof.
  intros Hn Hne Hs. unfold basename.
  replace (rev (dir ++ 47%N :: name ++ seps))
    with (rev seps ++ rev name ++ 47%N :: rev dir)
    by (rewrite rev_app_distr; simpl; rewrite rev_app_distr;
        now rewrite <- !app_assoc).
  rewrite dropWhile_app_all by (rewrite forallb_rev; exact Hs).
  apply not_separator in Hn. rewrite <- forallb_rev in Hn.
  rewrite dropWhile_none.
  - rewrite takeWhile_app_stop;
      [apply rev_involutive | exact Hn | reflexivity].
  - destruct (rev name) as [|c t] eqn:E.
    + apply (f_equal (@rev _)) in E. rewrite rev_involutive in E.
      contradiction.
    + simpl in Hn |- *. apply andb_true_iff in Hn as [Hc _].
      now apply negb_true_iff in Hc.
Qed.

Lemma basename_empty_iff (path : jsstring) :
  basename path = [] <-> isSeparators path = true.
Proof.
  split.
  - unfold basename. intros E.
    apply (f_equal (@rev _)) in E. rewrite rev_involutive in E. simpl in E.
    pose proof (dropWhile_head is_sep (rev path)) as Hhead.
    pose proof (takeWhile_dropWhile is_sep (rev path)) as Esplit.
    destruct (dropWhile is_sep (rev path)) as [|c rest].
    + rewrite app_nil_r in Esplit. unfold isSeparators.
      rewrite <- forallb_rev, <- Esplit. apply takeWhile_all.
    + simpl in E. rewrite Hhead in E. discriminate E.
  - intros H. exact (basename_of_name [] path (fun H => H) H).
Qed.

(** A callback that reads its item through [h] only gives the same
    blocks for lists that agree under [h]. *)
Lemma mapM_by {A B C} (h : A -> B) (f : A -> completion C) (l l' : list A) :
  (forall x y, h x = h y -> f x = f y) ->
  map h l = map h l' -> mapM f l = mapM f l'.
Proof.
  intros Hf. revert l'. induction l as [|x l IH]; intros [|y l'] E;
    try discriminate E; [reflexivity|].
  simpl in E. injection E as Exy E. simpl.
  rewrite (Hf x y Exy), (IH l' E). reflexivity.
Qed.

Lemma length_of_by {B} (h : jsstring -> B) (l l' : list jsstring) :
  map h l = map h l' -> length_of l = length_of l'.
Proof.
  intros E. unfold length_of. f_equal.
  rewrite <- (length_map h l), <- (length_map h l'). now rewrite E.
Qed.

Lemma differences_by_base_name (r r' : CompareOutput) (baseUrl : jsstring) :
  map basename (failedItems r') = map basename (failedItems r) ->
  differences r' baseUrl = differences r baseUrl.
Proof.
  intros E. unfold differences.
  rewrite (length_of_by basename _ _ E).
  rewrite (mapM_by basename (differenceBlock baseUrl) _ _) with (2 := E);
    [reflexivity|].
  intros x y Exy. unfold differenceBlock. cbn zeta. now rewrite Exy.
Qed.

Lemma newItems_by_base_name (r r' : CompareOutput) (baseUrl : jsstring) :
  map basename (Compare.newItems r') = map basename (Compare.newItems r) ->
  Comment.newItems r' baseUrl = Comment.newItems r baseUrl.
Proof.
  intros E. unfold Comment.newItems.
  rewrite (length_of_by basename _ _ E).
  rewrite (mapM_by basename (newItemBlock baseUrl) _ _) with (2 := E);
    [reflexivity|].
  intros x y Exy. unfold newItemBlock. cbn zeta. now rewrite Exy.
Qed.

Lemma deletedItems_by_base_name (r r' : CompareOutput)
  (baseUrl : jsstring) :
  map basename (Compare.deletedItems r')
  = map basename (Compare.deletedItems r) ->
  Comment.deletedItems r' baseUrl = Comment.deletedItems r baseUrl.
Proof.
  intros E. unfold Comment.deletedItems.
  rewrite (length_of_by basename _ _ E).
  rewrite (mapM_by basename (deletedItemBlock baseUrl) _ _) with (2 := E);
    [reflexivity|].
  intros x y Exy. unfold deletedItemBlock. cbn zeta. now rewrite Exy.
Qed.

(* ===================================================================== *)
(** ** Well-formed names *)
(* ===================================================================== *)

Lemma isWellFormed_cons (c : code_unit) (s : jsstring) :
  isWellFormed (c :: s)
  = if is_lead c then
      match s with
      | t :: s' => is_trail t && isWellFormed s'
      | [] => false
      end
    else negb (is_trail c) && isWellFormed s.
Proof. reflexivity. Qed.

Lemma isWellFormed_at_separator_pair (a : jsstring) :
  (forall b, isWellFormed (a ++ 47%N :: b)
             = isWellFormed a && isWellFormed b)
  /\ (forall c b, isWellFormed ((c :: a) ++ 47%N :: b)
                  = isWellFormed (c :: a) && isWellFormed b).
Proof.
  induction a as [|x a [IHa IHx]].
  - split; [reflexivity|].
    intros c b. simpl. destruct (is_lead c); [reflexivity|].
    now rewrite andb_true_r.
  - split; [apply IHx|].
    intros c b.
    change ((c :: x :: a) ++ 47%N :: b) with (c :: (x :: a) ++ 47%N :: b).
    rewrite (isWellFormed_cons c ((x :: a) ++ 47%N :: b)),
      (isWellFormed_cons c (x :: a)).
    destruct (is_lead c).
    + cbn [app]. rewrite IHa. apply andb_assoc.
    + rewrite IHx. apply andb_assoc.
Qed.

Lemma isWellFormed_at_separator (a b : jsstring) :
  isWellFormed (a ++ 47%N :: b) = isWellFormed a && isWellFormed b.
Proof. apply isWellFormed_at_separator_pair. Qed.

Lemma isWellFormed_before_separators (a seps : jsstring) :
  isSeparators seps = true ->
  isWellFormed (a ++ seps) = true -> isWellFormed a = true.
Proof.
  intros Hs H. destruct seps as [|c seps].
  - now rewrite app_nil_r in H.
  - simpl in Hs. apply andb_true_iff in Hs as [Hc _].
    apply is_sep_47 in Hc. subst c.
    rewrite isWellFormed_at_separator in H.
    now apply andb_true_iff in H.
Qed.

(** The base name of a well-formed path is well formed. *)
Lemma isWellFormed_basename (path : jsstring) :
  isWellFormed path = true -> isWellFormed (basename path) = true.
Proof.
  intros H. destruct (basename_decompose path) as [dir [seps [Hs [E|E]]]];
    rewrite E in H.
  - exact (isWellFormed_before_separators _ _ Hs H).
  - rewrite isWellFormed_at_separator in H.
    apply andb_true_iff in H as [_ H].
    exact (isWellFormed_before_separators _ _ Hs H).
Qed.

Lemma returns_of_well_formed_base_names
  (input : CreateCommentWithTargetInput.t) :
  Forall (fun item => isWellFormed (basename item) = true)
    (renderedItems (CreateCommentWithTargetInput.result input)) ->
  exists s, createCommentWithTarget input = Normal s.
Proof.
  destruct input as [ev run sha br name tr r date crp].
  cbn [CreateCommentWithTargetInput.result]. unfold renderedItems.
  rewrite !Forall_app. intros [Hf [Hn Hd]].
  unfold createCommentWithTarget; cbn beta iota zeta.
  match goal with
  | |- context [differences r ?u] =>
      apply (differences_returns r u) in Hf as [d ->];
      apply (newItems_returns r u) in Hn as [n ->];
      apply (deletedItems_returns r u) in Hd as [x ->]
  end.
  cbn [bind]. eauto.
Qed.

(* ===================================================================== *)
(** ** The sentence about the report page *)
(* ===================================================================== *)

(** Without a report page, the report without a target has no upper-case
    C followed by h but what the artifact name brings. *)
Lemma without_target_text_no_sentence
  (input : CreateCommentWithoutTargetInput.t) :
  truthy (CreateCommentWithoutTargetInput.customReportPage input) = false ->
  ~ In 67%N (CreateCommentWithoutTargetInput.artifactName input) ->
  guarded 67%N 104%N (createCommentWithoutTarget input) = true.
Proof.
  destruct input as [ev run r name crp].
  cbn [CreateCommentWithoutTargetInput.artifactName
       CreateCommentWithoutTargetInput.customReportPage].
  intros Hpage Hname. unfold createCommentWithoutTarget.
  cbn [CreateCommentWithoutTargetInput.artifactName
       CreateCommentWithoutTargetInput.customReportPage
       CreateCommentWithoutTargetInput.result].
  rewrite Hpage. guarded_pieces.
Qed.

(* ===================================================================== *)
(** ** Splitting and joining *)
(* ===================================================================== *)

Lemma join_cons (sep x : jsstring) (rest : list jsstring) :
  rest <> [] -> join sep (x :: rest) = x ++ sep ++ join sep rest.
Proof. destruct rest; [contradiction | reflexivity]. Qed.

Lemma join_split (sep : code_unit) (s : jsstring) :
  join [sep] (split sep s) = s.
Proof.
  induction s as [|c s IH]; [reflexivity|].
  simpl. destruct (N.eqb_spec c sep) as [->|_].
  - rewrite join_cons by apply split_nonempty. simpl. now rewrite IH.
  - pose proof (split_nonempty sep s) as Hne.
    destruct (split sep s) as [|seg segs]; [contradiction|].
    destruct segs as [|seg' segs]; simpl in IH |- *; now rewrite <- IH.
Qed.

Lemma split_pieces (sep : code_unit) (s : jsstring) :
  Forall (fun piece => ~ In sep piece) (split sep s).
Proof.
  induction s as [|c s IH]; simpl.
  - constructor; [intros []|constructor].
  - destruct (N.eqb_spec c sep) as [->|Hc].
    + constructor; [intros []|exact IH].
    + destruct (split sep s) as [|seg segs]; [repeat constructor|].
      * intros [E|[]]. now apply Hc.
      * inversion IH as [|? ? Hseg Hsegs]; subst.
        constructor; [|exact Hsegs].
        intros [E|Hin]; [now apply Hc | exact (Hseg Hin)].
Qed.

Lemma split_length (sep : code_unit) (s : jsstring) :
  List.length (split sep s) = S (count_occ N.eq_dec s sep).
Proof.
  induction s as [|c s IH]; [reflexivity|].
  simpl. destruct (N.eqb_spec c sep) as [->|Hc].
  - destruct (N.eq_dec sep sep); [|contradiction]. simpl. now rewrite IH.
  - destruct (N.eq_dec c sep); [contradiction|].
    destruct (split sep s); simpl in IH |- *; [discriminate IH | exact IH].
Qed.

(* ===================================================================== *)
(** ** What [encodeURIComponent] writes *)
(* ===================================================================== *)

(** Induction on a string two code units at a time, as the encoder
    reads it. *)
Lemma pair_induction (P : jsstring -> Prop) :
  P [] -> (forall c, P [c]) ->
  (forall c d s, P s -> P (d :: s) -> P (c :: d :: s)) ->
  forall s, P s.
Proof.
  intros Hnil Hone Hstep s.
  assert (H : P s /\ forall c, P (c :: s)).
  { induction s as [|d s [IHs IHd]]; [split; auto|].
    split; [apply IHd|]. intros c. apply Hstep; [exact IHs | apply IHd]. }
  apply H.
Qed.

Lemma lor_below_256 (a b : N) :
  (a < 256 -> b < 256 -> N.lor a b < 256)%N.
Proof.
  intros Ha Hb.
  assert (Hlog : forall x, (x < 256 -> N.log2 x < 8)%N).
  { intros x Hx. destruct (N.eq_dec x 0) as [->|Hx0]; [reflexivity|].
    apply N.log2_lt_pow2; [lia | exact Hx]. }
  destruct (N.eq_dec (N.lor a b) 0) as [->|Hne]; [reflexivity|].
  apply (N.log2_lt_pow2 _ 8); [lia|].
  rewrite N.log2_lor. apply N.max_lub_lt; auto.
Qed.

Lemma shiftr_below (cp k bound : N) :
  (cp < 2 ^ k * bound -> N.shiftr cp k < bound)%N.
Proof.
  intros H. rewrite N.shiftr_div_pow2.
  apply N.Div0.div_lt_upper_bound. exact H.
Qed.

Lemma land_63_below (x : N) : (N.land x 63 < 64)%N.
Proof.
  change 63%N with (N.ones 6). rewrite N.land_ones.
  apply N.mod_lt. discriminate.
Qed.

Lemma land_15_below (x : N) : (N.land x 15 < 16)%N.
Proof.
  change 15%N with (N.ones 4). rewrite N.land_ones.
  apply N.mod_lt. discriminate.
Qed.

Lemma utf8_octets (cp : N) :
  (cp < 1114112)%N -> Forall (fun o => (o < 256)%N) (utf8 cp).
Proof.
  intros Hcp. unfold utf8.
  assert (Hcont : forall x, (N.lor 128 (N.land x 63) < 256)%N).
  { intros x. apply lor_below_256; [reflexivity|].
    pose proof (land_63_below x). lia. }
  destruct (N.ltb_spec cp 128) as [H1|H1]; [repeat constructor; lia|].
  destruct (N.ltb_spec cp 2048) as [H2|H2].
  { repeat constructor; [|apply Hcont].
    apply lor_below_256; [reflexivity|].
    apply (shiftr_below cp 6 256). simpl. lia. }
  destruct (N.ltb_spec cp 65536) as [H3|H3].
  { repeat constructor; try apply Hcont.
    apply lor_below_256; [reflexivity|].
    apply (shiftr_below cp 12 256). simpl. lia. }
  repeat constructor; try apply Hcont.
  apply lor_below_256; [reflexivity|].
  apply (shiftr_below cp 18 256). simpl. lia.
Qed.

Lemma hex_digit_unescaped (d : N) :
  (d < 16)%N -> unescaped (hex_digit d) = true.
Proof.
  intros H.
  assert (E : In d [0; 1; 2; 3; 4; 5; 6; 7; 8; 9; 10; 11; 12; 13; 14; 15]%N)
    by (simpl; lia).
  simpl in E.
  repeat (destruct E as [<-|E]; [reflexivity|]). destruct E.
Qed.

Lemma percent_units (octet : N) :
  (octet < 256)%N -> forallb isComponentUnit (percent octet) = true.
Proof.
  intros H. unfold percent. cbn [forallb]. unfold isComponentUnit at 2 3.
  rewrite (hex_digit_unescaped (N.shiftr octet 4))
    by (apply (shiftr_below octet 4 16); simpl; lia).
  rewrite (hex_digit_unescaped (N.land octet 15)) by apply land_15_below.
  reflexivity.
Qed.

Lemma escape_units (cp : N) :
  (cp < 1114112)%N -> forallb isComponentUnit (escape cp) = true.
Proof.
  intros H. unfold escape. apply utf8_octets in H.
  induction H as [|o os Ho _ IH]; [reflexivity|].
  cbn [flat_map]. rewrite forallb_app, IH, andb_true_r.
  exact (percent_units o Ho).
Qed.

Lemma pair_to_code_point_below (l t : code_unit) :
  is_lead l = true -> is_trail t = true ->
  (pair_to_code_point l t < 1114112)%N.
Proof.
  unfold is_lead, is_trail, in_range, pair_to_code_point.
  rewrite !andb_true_iff, !N.leb_le. lia.
Qed.

Lemma encodeURIComponent_units_of (s : jsstring) :
  forall r, isString s = true -> encodeURIComponent s = Normal r ->
            forallb isComponentUnit r = true.
Proof.
  induction s as [| c | c d s IHs IHd] using pair_induction; intros r Hs H.
  - apply Normal_inj in H. now subst r.
  - simpl in H, Hs. rewrite andb_true_r in Hs. apply N.ltb_lt in Hs.
    destruct (unescaped c) eqn:U.
    + apply Normal_inj in H. subst r. simpl. unfold isComponentUnit.
      now rewrite U.
    + destruct (is_lead c); [discriminate H|].
      destruct (is_trail c); [discriminate H|].
      apply Normal_inj in H. subst r. rewrite app_nil_r.
      apply escape_units. lia.
  - cbn [encodeURIComponent] in H.
    assert (Hc : (c < 65536)%N)
      by (simpl in Hs; apply andb_true_iff in Hs as [Hs _];
          now apply N.ltb_lt in Hs).
    assert (Hds : isString (d :: s) = true)
      by (simpl in Hs |- *; now apply andb_true_iff in Hs as [_ Hs]).
    assert (Hss : isString s = true)
      by (simpl in Hds; now apply andb_true_iff in Hds as [_ Hds]).
    destruct (unescaped c) eqn:U.
    + apply bind_Normal in H as [r' [Hr' H]]. apply Normal_inj in H.
      subst r. simpl. unfold isComponentUnit at 1. rewrite U. simpl.
      exact (IHd r' Hds Hr').
    + destruct (is_lead c) eqn:L.
      * destruct (is_trail d) eqn:T; [|discriminate H].
        apply bind_Normal in H as [r' [Hr' H]]. apply Normal_inj in H.
        subst r. rewrite forallb_app, (IHs r' Hss Hr'), andb_true_r.
        apply escape_units, pair_to_code_point_below; assumption.
      * destruct (is_trail c); [discriminate H|].
        apply bind_Normal in H as [r' [Hr' H]]. apply Normal_inj in H.
        subst r. rewrite forallb_app, (IHd r' Hds Hr'), andb_true_r.
        apply escape_units. lia.
Qed.

Lemma encodeURIComponent_unreserved (s : jsstring) :
  forallb unescaped s = true -> encodeURIComponent s = Normal s.
Proof.
  induction s as [|c s IH]; [reflexivity|].
  simpl. intros H. apply andb_true_iff in H as [Hc Hs].
  rewrite Hc, (IH Hs). reflexivity.
Qed.

Lemma encodeURIComponent_cons (c : code_unit) (s : jsstring) :
  encodeURIComponent (c :: s)
  = if unescaped c then
      bind (encodeURIComponent s) (fun r => Normal (c :: r))
    else if is_lead c then
      match s with
      | t :: s' =>
          if is_trail t then
            bind (encodeURIComponent s')
                 (fun r => Normal (escape (pair_to_code_point c t) ++ r))
          else Throw URIError
      | [] => Throw URIError
      end
    else if is_trail c then Throw URIError
    else bind (encodeURIComponent s) (fun r => Normal (escape c ++ r)).
Proof. reflexivity. Qed.

Lemma encodeURIComponent_app (a b a' b' : jsstring) :
  encodeURIComponent a = Normal a' -> encodeURIComponent b = Normal b' ->
  encodeURIComponent (a ++ b) = Normal (a' ++ b').
Proof.
  intros Ha Hb. revert a' Ha.
  induction a as [| c | c d a IHa IHd] using pair_induction; intros a' Ha.
  - apply Normal_inj in Ha. now subst a'.
  - change ([c] ++ b) with (c :: b). simpl in Ha.
    cbn [encodeURIComponent].
    destruct (unescaped c).
    + apply Normal_inj in Ha. subst a'. rewrite Hb. reflexivity.
    + destruct (is_lead c); [discriminate Ha|].
      destruct (is_trail c); [discriminate Ha|].
      apply Normal_inj in Ha. subst a'. rewrite Hb, app_nil_r.
      reflexivity.
  - change ((c :: d :: a) ++ b) with (c :: (d :: a) ++ b).
    rewrite encodeURIComponent_cons in Ha |- *.
    destruct (unescaped c).
    + apply bind_Normal in Ha as [r [Hr Ha]]. apply Normal_inj in Ha.
      subst a'. rewrite (IHd r Hr). reflexivity.
    + destruct (is_lead c).
      * cbn [app]. destruct (is_trail d); [|discriminate Ha].
        apply bind_Normal in Ha as [r [Hr Ha]]. apply Normal_inj in Ha.
        subst a'. rewrite (IHa r Hr). cbn [bind].
        now rewrite app_assoc.
      * destruct (is_trail c); [discriminate Ha|].
        apply bind_Normal in Ha as [r [Hr Ha]]. apply Normal_inj in Ha.
        subst a'. rewrite (IHd r Hr). cbn [bind]. now rewrite app_assoc.
Qed.

(* ===================================================================== *)
(** ** Where a word can occur in a woven text *)
(* ===================================================================== *)









(* ===================================================================== *)
(** ** Runs of spaces *)
(* ===================================================================== *)







Lemma newItems_item_block (r : CompareOutput) (baseUrl text item : jsstring) :
  Comment.newItems r baseUrl = Normal text -> In item (Compare.newItems r) ->
  exists filename,
    encodeURIComponent (basename item) = Normal filename
    /\ Contains (newItemBlockOf baseUrl (basename item) filename) text.
Proof.
  unfold Comment.newItems. intros H Hin.
  rewrite (length_of_nonzero _ (In_nonempty _ _ Hin)) in H.
  apply bind_Normal in H as [blocks [Hb H]]. apply Normal_inj in H.
  subst text.
  destruct (section_block _ _ _ _ Hb Hin) as [block [Hblock Hc]].
  apply newItemBlock_text in Hblock as [filename [Hf ->]].
  exists filename. split; [exact Hf|].
  apply (Contains_trans _ _ _ Hc). contains_walk.
Qed.

Lemma deletedItems_item_block (r : CompareOutput)
  (baseUrl text item : jsstring) :
  Comment.deletedItems r baseUrl = Normal text ->
  In item (Compare.deletedItems r) ->
  exists filename,
    encodeURIComponent (basename item) = Normal filename
    /\ Contains (deletedItemBlockOf baseUrl (basename item) filename) text.
Proof.
  unfold Comment.deletedItems. intros H Hin.
  rewrite (length_of_nonzero _ (In_nonempty _ _ Hin)) in H.
  apply bind_Normal in H as [blocks [Hb H]]. apply Normal_inj in H.
  subst text.
  destruct (section_block _ _ _ _ Hb Hin) as [block [Hblock Hc]].
  apply deletedItemBlock_text in Hblock as [filename [Hf ->]].
  exists filename. split; [exact Hf|].
  apply (Contains_trans _ _ _ Hc). contains_walk.
Qed.

(** An item [dir/name] whose name is made of unreserved characters has
    [name] for base name and for encoded name. *)
Lemma plain_name_of_item (dir name : jsstring) :
  name <> [] -> ~ In 47%N name -> forallb unescaped name = true ->
  basename (dir ++ lit "/" ++ name) = name
  /\ encodeURIComponent name = Normal name.
Proof.
  intros Hne Hn Hu. split; [|exact (encodeURIComponent_unreserved name Hu)].
  rewrite <- (app_nil_r name) at 1.
  exact (basename_of_path dir name [] Hn Hne eq_refl).
Qed.

(** The blocks that a list of items gives, read off the relation of
    the items to their blocks. *)
Lemma Forall2_cons_l (A B : Type) (R : A -> B -> Prop) (x : A)
  (l : list A) (l' : list B) :
  Forall2 R (x :: l) l' ->
  exists y k, R x y /\ Forall2 R l k /\ l' = y :: k.
Proof. intros H. inversion H; subst. eauto. Qed.

Lemma Forall2_nil_l (A B : Type) (R : A -> B -> Prop) (l' : list B) :
  Forall2 R [] l' -> l' = [].
Proof. intros H. inversion H. reflexivity. Qed.

Ltac read_blocks Hb :=
  repeat match type of Hb with
         | Forall2 _ (_ :: _) _ =>
             let filename := fresh "filename" in
             let Henc := fresh "Henc" in
             let Hrest := fresh "Hrest" in
             let block := fresh "block" in
             let blocks := fresh "blocks" in
             let E := fresh "E" in
             apply Forall2_cons_l in Hb
               as [block [blocks [[filename [Henc ->]] [Hrest E]]]];
             vm_compute in Henc; apply Normal_inj in Henc;
             subst filename;
             match type of E with ?v = _ => subst v end;
             rename Hrest into Hb
         | Forall2 _ [] ?l =>
             apply Forall2_nil_l in Hb; subst l
         end.

(* ===================================================================== *)
(** ** Classification and badge *)
(* ===================================================================== *)

(** C1.  The result is classified as a success exactly when it has no
    failed, no new and no deleted item; the passed items play no part;
    a success always returns, and the returned text carries the
    celebration sentence under the passed badge, while any other result
    gets the plain header without it. *)
Theorem success_iff_no_failed_new_deleted
  (input : CreateCommentWithTargetInput.t) :
  let r := CreateCommentWithTargetInput.result input in
  let name := CreateCommentWithTargetInput.artifactName input in
  (isSuccess r = true <->
     failedItems r = [] /\ Compare.newItems r = []
     /\ Compare.deletedItems r = [])
  /\ (forall passed,
        isSuccess (mkCompareOutput passed (failedItems r)
                     (Compare.newItems r) (Compare.deletedItems r))
        = isSuccess r)
  /\ (isSuccess r = true ->
      exists s, createCommentWithTarget input = Normal s
        /\ includes
             (passedBadge ++ LF ++ LF
              ++ lit "## ArtifactName: `" ++ name ++ lit "`" ++ LF
              ++ lit "  " ++ LF ++ celebration ++ LF) s = true)
  /\ (isSuccess r = false ->
      forall s, createCommentWithTarget input = Normal s ->
        includes
          (badge r ++ LF ++ LF
           ++ lit "## ArtifactName: `" ++ name ++ lit "`" ++ LF
           ++ LF ++ lit "Check out the report [here](") s = true).
Proof.
  destruct input as [ev run sha br name tr r date crp]; cbn zeta.
  cbn [CreateCommentWithTargetInput.result
       CreateCommentWithTargetInput.artifactName].
  split; [apply isSuccess_iff|]. split; [reflexivity|]. split.
  - intros Hs. unfold createCommentWithTarget; cbn beta iota zeta.
    match goal with
    | |- context [differences r ?u] =>
        destruct (sections_of_success r u Hs) as [-> [-> ->]]
    end.
    cbn [bind]. eexists. split; [reflexivity|].
    unfold successOrFailMessage. rewrite Hs, (badge_of_success r Hs).
    unfold celebration. find_needle.
  - intros Hs s H. invert_comment H.
    unfold successOrFailMessage. rewrite Hs. find_needle.
Qed.

(** C2.  The badge follows a fixed precedence whatever the counts are:
    a failed item gives the orange "change detected" badge; failing
    that, a new item gives the green "new items" badge; failing both,
    the green "passed" badge.  Deleted and passed items play no part. *)
Theorem badge_precedence (r : CompareOutput) :
  badge r =
    match failedItems r, Compare.newItems r with
    | _ :: _, _ => changeDetectedBadge
    | [], _ :: _ => newItemsBadge
    | [], [] => passedBadge
    end
  /\ includes (lit "reg-change%20detected-orange") changeDetectedBadge = true
  /\ includes (lit "reg-new%20items-green") newItemsBadge = true
  /\ includes (lit "reg-passed-green") passedBadge = true.
Proof.
  split; [|repeat split; vm_compute; reflexivity].
  unfold badge.
  destruct (failedItems r) as [|f fs]; [|reflexivity].
  destruct (Compare.newItems r) as [|n ns]; reflexivity.
Qed.

(* ===================================================================== *)
(** ** The summary table *)
(* ===================================================================== *)

(** C3.  Whatever the input, the returned text holds the summary table
    with exactly the four rows pass, change, new, delete in this order,
    and their counts are the lengths of [passedItems], [failedItems],
    [newItems] and [deletedItems] in decimal; an empty list is counted
    as [0]. *)
Theorem summary_table_counts (input : CreateCommentWithTargetInput.t)
  (s : jsstring) :
  createCommentWithTarget input = Normal s ->
  let r := CreateCommentWithTargetInput.result input in
  includes
    (summaryTable (List.length (passedItems r)) (List.length (failedItems r))
       (List.length (Compare.newItems r))
       (List.length (Compare.deletedItems r))) s = true
  /\ Number_toString (length_of []) = lit "0".
Proof.
  destruct input as [ev run sha br name tr r date crp]; intros H; cbn zeta.
  cbn [CreateCommentWithTargetInput.result].
  split; [|reflexivity].
  invert_comment H. unfold summaryTable, length_of. find_needle.
Qed.

(* ===================================================================== *)
(** ** The Differences section *)
(* ===================================================================== *)

(** C4.  When there are failed items, the returned text holds the
    Differences section, made of one block per failed item, in their
    order, each block followed by a line break ([differencesSection]
    writes them one after the other, and nothing else between the
    header and the end of the section); the block of an item is titled
    with its base name as it is
    and embeds three images, at the base URL followed by [actual/],
    [expected/] and [diff/], the percent-encoded base name and
    [?raw=true].  For ["dir/sub/My File.png"] the base name is
    ["My File.png"] and the encoded name ["My%20File.png"]. *)
Theorem differences_one_block_per_failed_item
  (input : CreateCommentWithTargetInput.t) (s : jsstring) :
  createCommentWithTarget input = Normal s ->
  failedItems (CreateCommentWithTargetInput.result input) <> [] ->
  (exists blocks,
      Forall2
        (fun item block =>
           exists filename,
             encodeURIComponent (basename item) = Normal filename
             /\ block =
                differenceBlockOf (baseUrlOf input) (basename item) filename)
        (failedItems (CreateCommentWithTargetInput.result input)) blocks
      /\ includes (differencesSection blocks) s = true)
  /\ basename (lit "dir/sub/My File.png") = lit "My File.png"
  /\ encodeURIComponent (lit "My File.png") = Normal (lit "My%20File.png").
Proof.
  destruct input as [ev run sha br name tr r date crp]; intros H Hne.
  cbn [CreateCommentWithTargetInput.result] in *.
  split; [|split; vm_compute; reflexivity].
  invert_comment H.
  apply differences_Normal in Hdifferences as [blocks [Hb ->]];
    [|exact Hne].
  exists blocks. split; [exact Hb|].
  apply includes_Contains. contains_walk.
Qed.

(* ===================================================================== *)
(** ** The base URL of the images *)
(* ===================================================================== *)

(** C7.  Every image embed of the returned text is made from one base
    URL, [https://github.com/{owner}/{repoName}/blob/{branch}/{date}_{runId}_{artifactName}/]
    (this is [baseUrlOf]): the three embeds of each failed item, the
    embed of each new item and the embed of each deleted item.  Owner
    and repository name are the first two pieces of the full name split
    at ["/"]: for [owner/repo] they are [owner] and [repo], and a name
    without separator leaves the repository name undefined. *)
Theorem base_url_of_every_embed
  (input : CreateCommentWithTargetInput.t) (s : jsstring) :
  createCommentWithTarget input = Normal s ->
  let r := CreateCommentWithTargetInput.result input in
  let fullName :=
    Event.full_name
      (Event.repository (CreateCommentWithTargetInput.event input)) in
  (forall item, In item (failedItems r) ->
     exists filename,
       encodeURIComponent (basename item) = Normal filename
       /\ includes
            (embed (lit "Actual") (baseUrlOf input) (lit "actual/") filename)
            s = true
       /\ includes
            (embed (lit "Expected") (baseUrlOf input) (lit "expected/")
               filename) s = true
       /\ includes
            (embed (lit "Difference") (baseUrlOf input) (lit "diff/")
               filename) s = true)
  /\ (forall item, In item (Compare.newItems r) ->
        exists filename,
          encodeURIComponent (basename item) = Normal filename
          /\ includes
               (embed (lit "NewItem") (baseUrlOf input) (lit "actual/")
                  filename) s = true)
  /\ (forall item, In item (Compare.deletedItems r) ->
        exists filename,
          encodeURIComponent (basename item) = Normal filename
          /\ includes
               (embed (lit "DeleteItem") (baseUrlOf input) (lit "expected/")
                  filename) s = true)
  /\ (forall owner repo,
        ~ In 47%N owner -> ~ In 47%N repo ->
        fullName = owner ++ lit "/" ++ repo ->
        ownerOf input = owner /\ repoNameOf input = repo)
  /\ (~ In 47%N fullName ->
      ownerOf input = fullName /\ repoNameOf input = lit "undefined").
Proof.
  destruct input as [ev run sha br name tr r date crp]; intros H.
  cbn zeta. cbn [CreateCommentWithTargetInput.result
                 CreateCommentWithTargetInput.event].
  invert_comment H.
  split; [|split; [|split; [|split]]].
  - intros item Hin.
    destruct (differences_item _ _ _ _ Hdifferences Hin)
      as [filename [Hf Hc]].
    destruct (differenceBlockOf_embeds
                (baseUrlOf
                   (CreateCommentWithTargetInput.mk ev run sha br name tr r
                      date crp)) (basename item) filename)
      as [Ha [He Hd]].
    exists filename. split; [exact Hf|].
    repeat split; apply includes_Contains;
      (eapply Contains_trans; [eassumption|]);
      (eapply Contains_trans; [exact Hc|]); contains_walk.
  - intros item Hin.
    destruct (newItems_item _ _ _ _ HnewItems Hin) as [filename [Hf Hc]].
    exists filename. split; [exact Hf|].
    apply includes_Contains. eapply Contains_trans; [exact Hc|].
    contains_walk.
  - intros item Hin.
    destruct (deletedItems_item _ _ _ _ HdeletedItems Hin)
      as [filename [Hf Hc]].
    exists filename. split; [exact Hf|].
    apply includes_Contains. eapply Contains_trans; [exact Hc|].
    contains_walk.
  - intros owner repo Ho Hr E. unfold ownerOf, repoNameOf.
    cbn [CreateCommentWithTargetInput.event]. rewrite E.
    change (lit "/" ++ repo) with (47%N :: repo).
    rewrite (split_at_first_separator _ _ _ Ho), (split_without_separator _ _ Hr).
    split; reflexivity.
  - intros Hn. unfold ownerOf, repoNameOf.
    cbn [CreateCommentWithTargetInput.event].
    rewrite (split_without_separator _ _ Hn). split; reflexivity.
Qed.

(* ===================================================================== *)
(** ** The commit comparison sentence *)
(* ===================================================================== *)

(** C8.  The returned text opens with the comparison sentence: the link
    texts of the two commits are the first seven code units of the
    current hash and of the hash of the target run, the two commit links
    point at the full hashes, and the compare link goes from the short
    target hash to the short current hash. *)
Theorem comparison_sentence_hashes
  (input : CreateCommentWithTargetInput.t) (s : jsstring) :
  createCommentWithTarget input = Normal s ->
  startsWith
    (comparisonSentence (ownerOf input) (repoNameOf input)
       (CreateCommentWithTargetInput.sha input)
       (Run.head_sha (CreateCommentWithTargetInput.targetRun input))) s
  = true.
Proof.
  destruct input as [ev run sha br name tr r date crp]; intros H.
  cbn [CreateCommentWithTargetInput.sha
       CreateCommentWithTargetInput.targetRun].
  invert_comment H.
  unfold comparisonSentence, link, commitUrl, compareUrl, ownerOf,
    repoNameOf, slice0.
  cbn [CreateCommentWithTargetInput.event].
  change (lit "This report was generated by comparing [")
    with (lit "This report was generated by comparing " ++ lit "[").
  change (lit "](https://github.com/")
    with (lit "](" ++ lit "https://github.com/").
  change (lit ") with [") with (lit ")" ++ lit " with " ++ lit "[").
  change (lit ").") with (lit ")" ++ lit ".").
  change (lit "If you would like to check difference, please check [here](https://github.com/")
    with (lit "If you would like to check difference, please check "
          ++ lit "[" ++ lit "here" ++ lit "]("
          ++ lit "https://github.com/").
  apply startsWith_Prefix. rewrite <- ?app_assoc. prefix_here.
Qed.

(* ===================================================================== *)
(** ** The report link of the header *)
(* ===================================================================== *)

(** C9, as the code has it.  The target of the header's report link is
    decided by the truthiness of [customReportPage]: for a non-empty
    string it is the whole intermediate text (three spaces, a line
    break and the sentence linking the page), which nests one link in
    another; for [null] and for the empty string it is empty. *)
Theorem report_link_target
  (input : CreateCommentWithTargetInput.t) (s : jsstring) :
  createCommentWithTarget input = Normal s ->
  match CreateCommentWithTargetInput.customReportPage input with
  | Some (c :: page) =>
      includes
        (reportSentence (lit "   " ++ LF ++ reportSentence (c :: page))
         ++ LF ++ lit "    ") s = true
  | Some [] | None =>
      includes
        (lit "Check out the report [here]()." ++ LF ++ lit "    ") s = true
  end.
Proof.
  destruct input as [ev run sha br name tr r date crp]; intros H.
  cbn [CreateCommentWithTargetInput.customReportPage].
  invert_comment H.
  unfold successOrFailMessage, reportSentence, link.
  change (lit "Check out the report [here](")
    with (lit "Check out the report " ++ lit "[" ++ lit "here" ++ lit "](").
  change (lit ").") with (lit ")" ++ lit ".").
  change (lit "Check out the report [here]().")
    with (lit "Check out the report " ++ lit "[" ++ lit "here" ++ lit "]("
          ++ [] ++ lit ")" ++ lit ".").
  destruct crp as [[|c page]|]; cbn [truthy template_value];
    destruct (isSuccess r); find_needle.
Qed.

(** C9 as it was stated fails for a report page that is not [null] but
    empty: the header then reads [[here]()], not the nested link. *)
Lemma report_link_target_empty_page :
  CreateCommentWithTargetInput.customReportPage emptyPageInput = Some []
  /\ exists s,
       createCommentWithTarget emptyPageInput = Normal s
       /\ includes (reportSentence (lit "   " ++ LF ++ reportSentence [])) s
          = false
       /\ includes (lit "Check out the report [here]().") s = true.
Proof.
  split; [reflexivity|]. eexists. split; [vm_compute; reflexivity|].
  split; vm_compute; reflexivity.
Qed.

(* ===================================================================== *)
(** ** The report without a target *)
(* ===================================================================== *)

(** C5.  Without a target, two inputs with the same artifact name, the
    same report page and as many new items give the same text, whatever
    their failed, deleted and passed items are: in particular the text
    is the one of the input whose three other lists are empty, so it
    has no section for them; and when the artifact name and the report
    page have no upper-case D, the words Differences and Deleted Items
    do not occur in it. *)
Theorem without_target_reads_new_count_only
  (i1 i2 : CreateCommentWithoutTargetInput.t) :
  CreateCommentWithoutTargetInput.artifactName i1
  = CreateCommentWithoutTargetInput.artifactName i2 ->
  CreateCommentWithoutTargetInput.customReportPage i1
  = CreateCommentWithoutTargetInput.customReportPage i2 ->
  List.length (Compare.newItems (CreateCommentWithoutTargetInput.result i1))
  = List.length (Compare.newItems (CreateCommentWithoutTargetInput.result i2)) ->
  createCommentWithoutTarget i1 = createCommentWithoutTarget i2
  /\ createCommentWithoutTarget i1
     = createCommentWithoutTarget
         (CreateCommentWithoutTargetInput.mk
            (CreateCommentWithoutTargetInput.event i1)
            (CreateCommentWithoutTargetInput.runId i1)
            (mkCompareOutput [] []
               (Compare.newItems (CreateCommentWithoutTargetInput.result i1))
               [])
            (CreateCommentWithoutTargetInput.artifactName i1)
            (CreateCommentWithoutTargetInput.customReportPage i1))
  /\ (~ In LETTER_D (CreateCommentWithoutTargetInput.artifactName i1) ->
      ~ In LETTER_D
          (pageText (CreateCommentWithoutTargetInput.customReportPage i1)) ->
      includes (lit "Differences") (createCommentWithoutTarget i1) = false
      /\ includes (lit "Deleted Items") (createCommentWithoutTarget i1)
         = false).
Proof.
  intros Ename Epage Elen.
  split; [|split].
  - destruct i1 as [e1 n1 r1 a1 p1], i2 as [e2 n2 r2 a2 p2].
    cbn [CreateCommentWithoutTargetInput.artifactName
         CreateCommentWithoutTargetInput.customReportPage
         CreateCommentWithoutTargetInput.result] in Ename, Epage, Elen.
    subst a2 p2. unfold createCommentWithoutTarget, length_of.
    cbn [CreateCommentWithoutTargetInput.artifactName
         CreateCommentWithoutTargetInput.customReportPage
         CreateCommentWithoutTargetInput.result].
    rewrite Elen. reflexivity.
  - destruct i1 as [e1 n1 r1 a1 p1]. reflexivity.
  - intros Hname Hpage.
    change (lit "Differences") with (LETTER_D :: 105%N :: lit "fferences").
    change (lit "Deleted Items")
      with (LETTER_D :: 101%N :: lit "leted Items").
    split; apply guarded_excludes, without_target_text_guarded; auto.
Qed.

(** C10.  Without a target, the text does not depend on the event nor on
    the run id of the input: two inputs with the same result, artifact
    name and report page give the same text. *)
Theorem without_target_ignores_event_and_runId
  (i1 i2 : CreateCommentWithoutTargetInput.t) :
  CreateCommentWithoutTargetInput.result i1
  = CreateCommentWithoutTargetInput.result i2 ->
  CreateCommentWithoutTargetInput.artifactName i1
  = CreateCommentWithoutTargetInput.artifactName i2 ->
  CreateCommentWithoutTargetInput.customReportPage i1
  = CreateCommentWithoutTargetInput.customReportPage i2 ->
  createCommentWithoutTarget i1 = createCommentWithoutTarget i2.
Proof.
  unfold createCommentWithoutTarget. intros -> -> ->. reflexivity.
Qed.

(* ===================================================================== *)
(** ** The worked example of the specification *)
(* ===================================================================== *)



(* ===================================================================== *)
(** ** When the report is returned *)
(* ===================================================================== *)

(** The report with a target is returned exactly when the base name of
    every failed, new and deleted item is well formed; a lone surrogate
    in one of them makes [encodeURIComponent] throw. *)
Theorem returns_iff_base_names_well_formed
  (input : CreateCommentWithTargetInput.t) :
  ((exists s, createCommentWithTarget input = Normal s)
   <-> Forall (fun item => isWellFormed (basename item) = true)
         (renderedItems (CreateCommentWithTargetInput.result input)))
  /\ createCommentWithTarget loneSurrogateInput = Throw URIError.
Proof.
  split; [|vm_compute; reflexivity].
  destruct input as [ev run sha br name tr r date crp].
  cbn [CreateCommentWithTargetInput.result]. unfold renderedItems.
  rewrite !Forall_app.
  unfold createCommentWithTarget; cbn beta iota zeta.
  match goal with
  | |- context [differences r ?u] =>
      rewrite <- (differences_returns r u), <- (newItems_returns r u),
        <- (deletedItems_returns r u);
      destruct (differences r u) as [d|e1];
      [destruct (Comment.newItems r u) as [n|e2];
       [destruct (Comment.deletedItems r u) as [x|e3]|]|]
  end; cbn [bind];
    (split; [intros [s H] | intros [[s1 H1] [[s2 H2] [s3 H3]]]]);
    first [ congruence | repeat split; eauto ].
Qed.

(* ===================================================================== *)
(** ** The sections of new and deleted items, and the report block *)
(* ===================================================================== *)

(** When there are new items, the returned text holds the New Items
    section, made of one block per new item, in their order, each block
    followed by a line break; the block of an item is titled with its
    base name and embeds one image, at the base URL followed by
    [actual/], the percent-encoded base name and [?raw=true].  An item
    [dir/name] whose name is made of unreserved characters is shown
    under [name], with [name] in its URL; a space in a name is encoded
    as [%20]. *)
Theorem new_items_one_block_per_item
  (input : CreateCommentWithTargetInput.t) (s : jsstring) :
  createCommentWithTarget input = Normal s ->
  Compare.newItems (CreateCommentWithTargetInput.result input) <> [] ->
  (exists blocks,
      Forall2
        (fun item block =>
           exists filename,
             encodeURIComponent (basename item) = Normal filename
             /\ block =
                newItemBlockOf (baseUrlOf input) (basename item) filename)
        (Compare.newItems (CreateCommentWithTargetInput.result input)) blocks
      /\ includes (newItemsSection blocks) s = true)
  /\ (forall dir name,
        In (dir ++ lit "/" ++ name)
          (Compare.newItems (CreateCommentWithTargetInput.result input)) ->
        name <> [] -> ~ In 47%N name -> forallb unescaped name = true ->
        includes (newItemBlockOf (baseUrlOf input) name name) s = true)
  /\ basename (lit "shots/New Page.png") = lit "New Page.png"
  /\ encodeURIComponent (lit "New Page.png")
     = Normal (lit "New%20Page.png").
Proof.
  destruct input as [ev run sha br name tr r date crp]; intros H Hne.
  cbn [CreateCommentWithTargetInput.result] in *.
  split; [|split; [|split; vm_compute; reflexivity]].
  - invert_comment H.
    apply newItems_Normal in HnewItems as [blocks [Hb ->]]; [|exact Hne].
    exists blocks. split; [exact Hb|].
    apply includes_Contains. contains_walk.
  - intros dir file Hin Hfile Hsep Hunreserved. invert_comment H.
    destruct (newItems_item_block _ _ _ _ HnewItems Hin)
      as [filename [Hf Hc]].
    destruct (plain_name_of_item dir file Hfile Hsep Hunreserved)
      as [Ebase Eenc].
    rewrite Ebase in Hf, Hc. rewrite Eenc in Hf. apply Normal_inj in Hf.
    subst filename.
    apply includes_Contains. apply (Contains_trans _ _ _ Hc). contains_walk.
Qed.

(** When there are deleted items, the returned text holds the Deleted
    Items section, made of one block per deleted item, in their order,
    each block followed by a line break; the block of an item is titled
    with its base name and embeds one image, at the base URL followed
    by [expected/], the percent-encoded base name and [?raw=true].  An
    item [dir/name] whose name is made of unreserved characters is
    shown under [name], with [name] in its URL; a space in a name is
    encoded as [%20]. *)
Theorem deleted_items_one_block_per_item
  (input : CreateCommentWithTargetInput.t) (s : jsstring) :
  createCommentWithTarget input = Normal s ->
  Compare.deletedItems (CreateCommentWithTargetInput.result input) <> [] ->
  (exists blocks,
      Forall2
        (fun item block =>
           exists filename,
             encodeURIComponent (basename item) = Normal filename
             /\ block =
                deletedItemBlockOf (baseUrlOf input) (basename item) filename)
        (Compare.deletedItems (CreateCommentWithTargetInput.result input))
        blocks
      /\ includes (deletedItemsSection blocks) s = true)
  /\ (forall dir name,
        In (dir ++ lit "/" ++ name)
          (Compare.deletedItems (CreateCommentWithTargetInput.result input)) ->
        name <> [] -> ~ In 47%N name -> forallb unescaped name = true ->
        includes (deletedItemBlockOf (baseUrlOf input) name name) s = true)
  /\ basename (lit "shots/Old Page.png") = lit "Old Page.png"
  /\ encodeURIComponent (lit "Old Page.png")
     = Normal (lit "Old%20Page.png").
Proof.
  destruct input as [ev run sha br name tr r date crp]; intros H Hne.
  cbn [CreateCommentWithTargetInput.result] in *.
  split; [|split; [|split; vm_compute; reflexivity]].
  - invert_comment H.
    apply deletedItems_Normal in HdeletedItems as [blocks [Hb ->]];
      [|exact Hne].
    exists blocks. split; [exact Hb|].
    apply includes_Contains. contains_walk.
  - intros dir file Hin Hfile Hsep Hunreserved. invert_comment H.
    destruct (deletedItems_item_block _ _ _ _ HdeletedItems Hin)
      as [filename [Hf Hc]].
    destruct (plain_name_of_item dir file Hfile Hsep Hunreserved)
      as [Ebase Eenc].
    rewrite Ebase in Hf, Hc. rewrite Eenc in Hf. apply Normal_inj in Hf.
    subst filename.
    apply includes_Contains. apply (Contains_trans _ _ _ Hc). contains_walk.
Qed.

(** The returned text ends with the report block, which holds the texts
    of the three sections in the order Differences, New Items, Deleted
    Items, each on a line of its own; the text of a section is empty
    exactly when its list is empty, so a section is written only for a
    list that has items. *)
Theorem report_block_of_sections
  (input : CreateCommentWithTargetInput.t) (s : jsstring) :
  createCommentWithTarget input = Normal s ->
  let r := CreateCommentWithTargetInput.result input in
  exists differencesText newItemsText deletedItemsText,
    differences r (baseUrlOf input) = Normal differencesText
    /\ Comment.newItems r (baseUrlOf input) = Normal newItemsText
    /\ Comment.deletedItems r (baseUrlOf input) = Normal deletedItemsText
    /\ Suffix (reportBlock differencesText newItemsText deletedItemsText) s
    /\ (differencesText = [] <-> failedItems r = [])
    /\ (newItemsText = [] <-> Compare.newItems r = [])
    /\ (deletedItemsText = [] <-> Compare.deletedItems r = []).
Proof.
  destruct input as [ev run sha br name tr r date crp]; intros H.
  cbn zeta. cbn [CreateCommentWithTargetInput.result].
  invert_comment H.
  exists differencesText, newItemsText, deletedItemsText.
  split; [exact Hdifferences|]. split; [exact HnewItems|].
  split; [exact HdeletedItems|]. split.
  - unfold reportBlock. rewrite <- ?app_assoc. suffix_walk.
  - split; [exact (differences_empty_iff _ _ _ Hdifferences)|].
    split; [exact (newItems_empty_iff _ _ _ HnewItems)|].
    exact (deletedItems_empty_iff _ _ _ HdeletedItems).
Qed.

(* ===================================================================== *)
(** ** Badge and header of a result with deleted items only *)
(* ===================================================================== *)

(** A result whose only findings are deleted items is not a success, yet
    its badge is the passed one: the returned text shows the passed
    badge over the header that has no celebration sentence. *)
Theorem deleted_only_passed_badge_plain_header
  (input : CreateCommentWithTargetInput.t) (s : jsstring) :
  let r := CreateCommentWithTargetInput.result input in
  failedItems r = [] -> Compare.newItems r = [] ->
  Compare.deletedItems r <> [] ->
  createCommentWithTarget input = Normal s ->
  isSuccess r = false
  /\ badge r = passedBadge
  /\ includes
       (passedBadge ++ LF ++ LF
        ++ lit "## ArtifactName: `"
        ++ CreateCommentWithTargetInput.artifactName input ++ lit "`" ++ LF
        ++ LF ++ lit "Check out the report [here](") s = true.
Proof.
  destruct input as [ev run sha br name tr r date crp]; cbn zeta.
  cbn [CreateCommentWithTargetInput.result
       CreateCommentWithTargetInput.artifactName].
  intros Hf Hn Hd H.
  assert (Hs : isSuccess r = false).
  { destruct (isSuccess r) eqn:E; [|reflexivity].
    apply isSuccess_iff in E as [_ [_ E]]. contradiction. }
  assert (Hb : badge r = passedBadge)
    by (unfold badge; rewrite Hf, Hn; reflexivity).
  split; [exact Hs|]. split; [exact Hb|].
  invert_comment H. unfold successOrFailMessage. rewrite Hs, Hb.
  find_needle.
Qed.

(* ===================================================================== *)
(** ** What the report with a target does not read *)
(* ===================================================================== *)

(** Only the first two pieces of the full name of the repository are
    read: what follows a second separator changes nothing. *)
Theorem full_name_extra_segments_ignored
  (input : CreateCommentWithTargetInput.t) (owner repo rest : jsstring) :
  ~ In 47%N owner -> ~ In 47%N repo ->
  createCommentWithTarget
    (withFullName (owner ++ lit "/" ++ repo ++ lit "/" ++ rest) input)
  = createCommentWithTarget (withFullName (owner ++ lit "/" ++ repo) input).
Proof.
  intros Ho Hr. destruct input as [ev run sha br name tr r date crp].
  unfold withFullName, createCommentWithTarget.
  cbn [CreateCommentWithTargetInput.runId CreateCommentWithTargetInput.sha
       CreateCommentWithTargetInput.regBranch
       CreateCommentWithTargetInput.artifactName
       CreateCommentWithTargetInput.targetRun
       CreateCommentWithTargetInput.result
       CreateCommentWithTargetInput.date
       CreateCommentWithTargetInput.customReportPage
       Event.repository Event.full_name].
  change (lit "/" ++ repo ++ lit "/" ++ rest)
    with (47%N :: repo ++ 47%N :: rest).
  change (lit "/" ++ repo) with (47%N :: repo).
  rewrite !(split_at_first_separator _ _ _ Ho).
  rewrite (split_at_first_separator _ _ _ Hr).
  rewrite (split_without_separator _ _ Hr).
  reflexivity.
Qed.

(** The branch, the run id and the date are read for the images only:
    when no item is failed, new or deleted, they change nothing. *)
Theorem storage_fields_unread_without_images
  (input : CreateCommentWithTargetInput.t) (regBranch : jsstring)
  (runId : number) (date : jsstring) :
  let r := CreateCommentWithTargetInput.result input in
  failedItems r = [] -> Compare.newItems r = [] ->
  Compare.deletedItems r = [] ->
  createCommentWithTarget (withStorage regBranch runId date input)
  = createCommentWithTarget input.
Proof.
  destruct input as [ev run sha br name tr r dt crp]; cbn zeta.
  cbn [CreateCommentWithTargetInput.result]. intros Hf Hn Hd.
  assert (Hs : isSuccess r = true) by (apply isSuccess_iff; auto).
  unfold withStorage, createCommentWithTarget.
  cbn [CreateCommentWithTargetInput.event CreateCommentWithTargetInput.sha
       CreateCommentWithTargetInput.artifactName
       CreateCommentWithTargetInput.targetRun
       CreateCommentWithTargetInput.result
       CreateCommentWithTargetInput.customReportPage].
  repeat match goal with
         | |- context [differences r ?u] =>
             destruct (sections_of_success r u Hs) as [-> [-> ->]]
         end.
  reflexivity.
Qed.

(* ===================================================================== *)
(** ** The text of the report without a target *)
(* ===================================================================== *)

(** The report without a target opens with the name of the artifact,
    shows the blue badge, and ends with the table of the one row that
    counts the new items.  A report page that is a non-empty string is
    linked after the badge, and the target of the link is the page
    itself; with [null] or the empty string there is no sentence about
    a report at all (the artifact name apart). *)
Theorem without_target_text (input : CreateCommentWithoutTargetInput.t) :
  let text := createCommentWithoutTarget input in
  let name := CreateCommentWithoutTargetInput.artifactName input in
  let count :=
    List.length
      (Compare.newItems (CreateCommentWithoutTargetInput.result input)) in
  startsWith (lit "## ArtifactName: `" ++ name ++ lit "`" ++ LF) text = true
  /\ Suffix
       (LF ++ lit "| item    | count                         |" ++ LF
        ++ lit "|:--------|:-----------------------------:|" ++ LF
        ++ lit "| new     | " ++ Number_toString (Z.of_nat count)
        ++ lit "     |" ++ LF
        ++ lit "  ") text
  /\ match CreateCommentWithoutTargetInput.customReportPage input with
     | Some (c :: page) =>
         includes
           (targetNotFoundBadge ++ LF
            ++ lit "   " ++ LF
            ++ lit "  " ++ reportSentence (c :: page) ++ LF) text = true
     | Some [] | None =>
         includes (targetNotFoundBadge ++ LF ++ LF ++ LF ++ lit "| item")
           text = true
         /\ (~ In 67%N name ->
             includes (lit "Check out the report") text = false)
     end.
Proof.
  cbn zeta.
  assert (Hnone :
    truthy (CreateCommentWithoutTargetInput.customReportPage input) = false ->
    ~ In 67%N (CreateCommentWithoutTargetInput.artifactName input) ->
    includes (lit "Check out the report") (createCommentWithoutTarget input)
    = false).
  { intros Hp Hn.
    change (lit "Check out the report")
      with (67%N :: 104%N :: lit "eck out the report").
    apply guarded_excludes, without_target_text_no_sentence; assumption. }
  destruct input as [ev run r name crp].
  cbn [CreateCommentWithoutTargetInput.artifactName
       CreateCommentWithoutTargetInput.customReportPage
       CreateCommentWithoutTargetInput.result] in *.
  unfold createCommentWithoutTarget in *.
  cbn [CreateCommentWithoutTargetInput.artifactName
       CreateCommentWithoutTargetInput.customReportPage
       CreateCommentWithoutTargetInput.result] in *.
  unfold length_of, targetNotFoundBadge, reportSentence, link.
  split; [apply startsWith_Prefix; prefix_here|].
  split; [rewrite <- ?app_assoc; suffix_walk|].
  change (lit "| item    | count                         |")
    with (lit "| item" ++ lit "    | count                         |").
  change (lit "  Check out the report [here](")
    with (lit "  " ++ lit "Check out the report " ++ lit "[" ++ lit "here"
          ++ lit "](").
  change (lit ").") with (lit ")" ++ lit ".").
  destruct crp as [[|c page]|]; cbn [truthy template_value] in *.
  - split; [cbn [app]; find_needle | apply Hnone; reflexivity].
  - find_needle.
  - split; [cbn [app]; find_needle | apply Hnone; reflexivity].
Qed.

(* ===================================================================== *)
(** ** Items are read by their base names *)
(* ===================================================================== *)

(** The base name of a path drops the directory and the separators at
    the end: a name without separator is kept as it is, whatever
    directory comes before it and however many separators follow. *)
Theorem basename_drops_directory (dir name seps : jsstring) :
  ~ In 47%N name -> name <> [] -> isSeparators seps = true ->
  basename (dir ++ lit "/" ++ name ++ seps) = name
  /\ basename (name ++ seps) = name.
Proof.
  intros Hn Hne Hs. split.
  - exact (basename_of_path dir name seps Hn Hne Hs).
  - exact (basename_of_name name seps Hn Hs).
Qed.

(** A base name holds no separator, taking the base name twice changes
    nothing, and the base name is empty exactly for a path made of
    separators only, the empty path included. *)
Theorem basename_has_no_separator (path : jsstring) :
  ~ In 47%N (basename path)
  /\ basename (basename path) = basename path
  /\ (basename path = [] <-> isSeparators path = true).
Proof.
  split; [apply basename_without_separator|]. split.
  - rewrite <- (app_nil_r (basename path)) at 1.
    apply basename_of_name; [apply basename_without_separator|reflexivity].
  - apply basename_empty_iff.
Qed.

(** The items are read by their base names, and the passed items by
    their number: a result whose failed, new and deleted items have the
    same base names in the same order, and which has as many passed
    items, gives the same text.  The directory of an item never shows. *)
Theorem items_read_by_base_name
  (input : CreateCommentWithTargetInput.t) (r' : CompareOutput) :
  let r := CreateCommentWithTargetInput.result input in
  List.length (passedItems r') = List.length (passedItems r) ->
  map basename (failedItems r') = map basename (failedItems r) ->
  map basename (Compare.newItems r') = map basename (Compare.newItems r) ->
  map basename (Compare.deletedItems r')
  = map basename (Compare.deletedItems r) ->
  createCommentWithTarget (withResult r' input)
  = createCommentWithTarget input.
Proof.
  destruct input as [ev run sha br name tr r date crp]; cbn zeta.
  cbn [CreateCommentWithTargetInput.result]. intros Hp Hf Hn Hd.
  unfold withResult, createCommentWithTarget.
  cbn [CreateCommentWithTargetInput.event CreateCommentWithTargetInput.sha
       CreateCommentWithTargetInput.runId
       CreateCommentWithTargetInput.regBranch
       CreateCommentWithTargetInput.date
       CreateCommentWithTargetInput.artifactName
       CreateCommentWithTargetInput.targetRun
       CreateCommentWithTargetInput.customReportPage].
  rewrite !(differences_by_base_name r r' _ Hf),
    !(newItems_by_base_name r r' _ Hn),
    !(deletedItems_by_base_name r r' _ Hd).
  unfold successOrFailMessage, isSuccess, badge.
  rewrite (length_of_by basename _ _ Hf), (length_of_by basename _ _ Hn),
    (length_of_by basename _ _ Hd).
  unfold length_of. rewrite Hp. reflexivity.
Qed.

(* ===================================================================== *)
(** ** Well-formed item names are enough *)
(* ===================================================================== *)

(** The report with a target is returned whenever the name of every
    failed, new and deleted item is well-formed UTF-16: taking the base
    name keeps a name well formed. *)
Theorem returns_for_well_formed_items
  (input : CreateCommentWithTargetInput.t) :
  Forall (fun item => isWellFormed item = true)
    (renderedItems (CreateCommentWithTargetInput.result input)) ->
  exists s, createCommentWithTarget input = Normal s.
Proof.
  intros H. apply returns_of_well_formed_base_names.
  revert H. apply Forall_impl. intros item. apply isWellFormed_basename.
Qed.

(* ===================================================================== *)
(** ** The full name split at its separators *)
(* ===================================================================== *)

(** Splitting at a separator loses nothing: joining the pieces with the
    separator gives the string back, no piece holds the separator, and
    there is one piece more than there are separators. *)
Theorem split_then_join (sep : code_unit) (s : jsstring) :
  join [sep] (split sep s) = s
  /\ Forall (fun piece => ~ In sep piece) (split sep s)
  /\ List.length (split sep s) = S (count_occ N.eq_dec s sep).
Proof.
  split; [apply join_split|]. split; [apply split_pieces|].
  apply split_length.
Qed.

(* ===================================================================== *)
(** ** The encoded file name *)
(* ===================================================================== *)

(** An encoded name is made of unreserved characters and percent signs
    only: it holds no separator, question mark, hash sign or space, so
    the file name cannot change the path or the query of the URL it is
    put in. *)
Theorem encoded_name_units (s r : jsstring) :
  isString s = true -> encodeURIComponent s = Normal r ->
  forallb isComponentUnit r = true
  /\ ~ In 47%N r /\ ~ In 63%N r /\ ~ In 35%N r /\ ~ In 32%N r.
Proof.
  intros Hs H. pose proof (encodeURIComponent_units_of s r Hs H) as Hr.
  split; [exact Hr|].
  rewrite forallb_forall in Hr.
  repeat split; intros Hin; apply Hr in Hin; discriminate Hin.
Qed.

(** Encoding goes piece by piece: the encoding of two strings put
    together is their encodings put together, and a string of
    unreserved characters is its own encoding, so an extension such as
    [.png] is kept as it is. *)
Theorem encodeURIComponent_concat (a b a' b' : jsstring) :
  encodeURIComponent a = Normal a' -> encodeURIComponent b = Normal b' ->
  encodeURIComponent (a ++ b) = Normal (a' ++ b')
  /\ (forallb unescaped b = true -> b' = b).
Proof.
  intros Ha Hb. split; [exact (encodeURIComponent_app a b a' b' Ha Hb)|].
  intros Hu. rewrite (encodeURIComponent_unreserved b Hu) in Hb.
  now apply Normal_inj in Hb.
Qed.

(* ===================================================================== *)
(** ** The theorems at the sample inputs *)
(* ===================================================================== *)

(** The success of [passedOnlyInput]: it returns, with the celebration
    under the passed badge. *)
Lemma success_of_passed_only :
  exists s,
    createCommentWithTarget passedOnlyInput = Normal s
    /\ includes
         (passedBadge ++ LF ++ LF
          ++ lit "## ArtifactName: `home`" ++ LF
          ++ lit "  " ++ LF ++ celebration ++ LF) s = true.
Proof.
  destruct (success_iff_no_failed_new_deleted passedOnlyInput)
    as [_ [_ [H _]]].
  apply H. reflexivity.
Defined.

(** The table of [mixedInput] counts 2, 2, 3 and 1. *)
Lemma summary_table_of_mixed :
  exists s,
    createCommentWithTarget mixedInput = Normal s
    /\ includes (summaryTable 2 2 3 1) s = true.
Proof.
  eexists. split; [vm_compute; reflexivity|].
  refine (proj1 (summary_table_counts mixedInput _ _)).
  vm_compute. reflexivity.
Defined.

(** The Differences section of [mixedInput], as it is written. *)
Lemma differences_of_mixed :
  exists s,
    createCommentWithTarget mixedInput = Normal s
    /\ includes
         (lit "### Differences" ++ LF
          ++ lit "  " ++ LF
          ++ lit "### `My File.png`" ++ LF
          ++ lit "   " ++ LF
          ++ lit "| actual|![Actual](https://github.com/owner/repo/blob/reg_actions/2023-01-01_4242_home/actual/My%20File.png?raw=true) |" ++ LF
          ++ lit "|--|--|" ++ LF
          ++ lit "|expected|![Expected](https://github.com/owner/repo/blob/reg_actions/2023-01-01_4242_home/expected/My%20File.png?raw=true)|" ++ LF
          ++ lit "|difference|![Difference](https://github.com/owner/repo/blob/reg_actions/2023-01-01_4242_home/diff/My%20File.png?raw=true)|" ++ LF
          ++ lit "### `y.png`" ++ LF
          ++ lit "   " ++ LF
          ++ lit "| actual|![Actual](https://github.com/owner/repo/blob/reg_actions/2023-01-01_4242_home/actual/y.png?raw=true) |" ++ LF
          ++ lit "|--|--|" ++ LF
          ++ lit "|expected|![Expected](https://github.com/owner/repo/blob/reg_actions/2023-01-01_4242_home/expected/y.png?raw=true)|" ++ LF
          ++ lit "|difference|![Difference](https://github.com/owner/repo/blob/reg_actions/2023-01-01_4242_home/diff/y.png?raw=true)|" ++ LF
          ++ lit "  ") s = true.
Proof.
  destruct (createCommentWithTarget mixedInput) as [s|e] eqn:E;
    [|vm_compute in E; discriminate E].
  destruct (differences_one_block_per_failed_item mixedInput s E)
    as [[blocks [Hb Hi]] _]; [discriminate|].
  exists s. split; [reflexivity|].
  cbn [mixedInput mixedResult CreateCommentWithTargetInput.result
       Compare.failedItems] in Hb.
  read_blocks Hb.
  apply includes_Contains. apply includes_Contains in Hi.
  refine (Contains_trans _ _ _ _ Hi).
  apply includes_Contains. vm_compute. reflexivity.
Defined.


(** The actual image of the first failed item of [mixedInput], and the
    same in the run [2^64], which is no safe integer and is printed
    [18446744073709552000]. *)
Lemma base_url_of_mixed :
  (exists s,
     createCommentWithTarget mixedInput = Normal s
     /\ includes
          (lit "![Actual](https://github.com/owner/repo/blob/reg_actions/2023-01-01_4242_home/actual/My%20File.png?raw=true)")
          s = true)
  /\ (exists s,
        createCommentWithTarget hugeRunInput = Normal s
        /\ includes
             (lit "![Actual](https://github.com/owner/repo/blob/reg_actions/2023-01-01_18446744073709552000_home/actual/My%20File.png?raw=true)")
             s = true).
Proof.
  split.
  - eexists. split; [vm_compute; reflexivity|].
    destruct (base_url_of_every_embed mixedInput _ eq_refl) as [Hf _].
    destruct (Hf (lit "dir/sub/My File.png") (or_introl eq_refl))
      as [filename [Henc [Ha _]]].
    vm_compute in Henc. apply Normal_inj in Henc. subst filename.
    exact Ha.
  - eexists. split; [vm_compute; reflexivity|].
    destruct (base_url_of_every_embed hugeRunInput _ eq_refl) as [Hf _].
    destruct (Hf (lit "dir/sub/My File.png") (or_introl eq_refl))
      as [filename [Henc [Ha _]]].
    vm_compute in Henc. apply Normal_inj in Henc. subst filename.
    exact Ha.
Defined.

(** The opening of the report of [mixedInput]. *)
Lemma comparison_sentence_of_mixed :
  exists s,
    createCommentWithTarget mixedInput = Normal s
    /\ startsWith
         (lit "This report was generated by comparing [0123456](https://github.com/owner/repo/commit/0123456789abcdef0123456789abcdef01234567) with [fedcba9](https://github.com/owner/repo/commit/fedcba9876543210fedcba9876543210fedcba98)."
          ++ LF
          ++ lit "If you would like to check difference, please check [here](https://github.com/owner/repo/compare/fedcba9..0123456)."
          ++ LF) s = true.
Proof.
  eexists. split; [vm_compute; reflexivity|].
  apply (comparison_sentence_hashes mixedInput). vm_compute. reflexivity.
Defined.

(** The nested link of [mixedInput], whose report page is set. *)
Lemma report_link_of_mixed :
  exists s,
    createCommentWithTarget mixedInput = Normal s
    /\ includes
         (lit "Check out the report [here](   " ++ LF
          ++ lit "Check out the report [here](https://example.com/report).)."
          ++ LF) s = true.
Proof.
  eexists. split; [vm_compute; reflexivity|].
  apply includes_Contains.
  apply Contains_trans
    with (reportSentence
            (lit "   " ++ LF
             ++ reportSentence (lit "https://example.com/report"))
          ++ LF ++ lit "    ").
  - apply includes_Contains. vm_compute. reflexivity.
  - apply includes_Contains.
    apply (report_link_target mixedInput). vm_compute. reflexivity.
Defined.

(** Two cold starts that differ in all but the artifact, the page and the
    number of new items; the first has failed and deleted items, and no
    header of theirs in its text. *)
Lemma without_target_same_new_count :
  createCommentWithoutTarget coldStartInput
  = createCommentWithoutTarget otherColdStartInput
  /\ includes (lit "Differences") (createCommentWithoutTarget coldStartInput)
     = false
  /\ includes (lit "Deleted Items")
       (createCommentWithoutTarget coldStartInput) = false.
Proof.
  destruct (without_target_reads_new_count_only coldStartInput
              otherColdStartInput eq_refl eq_refl eq_refl) as [E [_ H]].
  split; [exact E|].
  apply H; apply without_unit; vm_compute; reflexivity.
Defined.

(** The same cold start under another event and run. *)
Lemma without_target_other_event :
  createCommentWithoutTarget coldStartInput
  = createCommentWithoutTarget rerunColdStartInput.
Proof.
  apply (without_target_ignores_event_and_runId coldStartInput
           rerunColdStartInput); reflexivity.
Defined.

(* ===================================================================== *)
(** ** The further properties at the sample inputs *)
(* ===================================================================== *)

(** The New Items section of [mixedInput], as it is written. *)
Lemma new_items_of_mixed :
  exists s,
    createCommentWithTarget mixedInput = Normal s
    /\ includes
         (lit "### New Items" ++ LF
          ++ lit "  " ++ LF
          ++ lit "### `n1.png`" ++ LF
          ++ lit "       " ++ LF
          ++ lit "|  |" ++ LF
          ++ lit "|--|" ++ LF
          ++ lit "|![NewItem](https://github.com/owner/repo/blob/reg_actions/2023-01-01_4242_home/actual/n1.png?raw=true)|" ++ LF
          ++ lit "       " ++ LF
          ++ lit "### `n2.png`" ++ LF
          ++ lit "       " ++ LF
          ++ lit "|  |" ++ LF
          ++ lit "|--|" ++ LF
          ++ lit "|![NewItem](https://github.com/owner/repo/blob/reg_actions/2023-01-01_4242_home/actual/n2.png?raw=true)|" ++ LF
          ++ lit "       " ++ LF
          ++ lit "### `n3`" ++ LF
          ++ lit "       " ++ LF
          ++ lit "|  |" ++ LF
          ++ lit "|--|" ++ LF
          ++ lit "|![NewItem](https://github.com/owner/repo/blob/reg_actions/2023-01-01_4242_home/actual/n3?raw=true)|" ++ LF
          ++ lit "       " ++ LF
          ++ lit "  ") s = true.
Proof.
  destruct (createCommentWithTarget mixedInput) as [s|e] eqn:E;
    [|vm_compute in E; discriminate E].
  destruct (new_items_one_block_per_item mixedInput s E)
    as [[blocks [Hb Hi]] _]; [discriminate|].
  exists s. split; [reflexivity|].
  cbn [mixedInput mixedResult CreateCommentWithTargetInput.result
       Compare.newItems] in Hb.
  read_blocks Hb.
  apply includes_Contains. apply includes_Contains in Hi.
  refine (Contains_trans _ _ _ _ Hi).
  apply includes_Contains. vm_compute. reflexivity.
Defined.

(** The Deleted Items section of [mixedInput], as it is written. *)
Lemma deleted_items_of_mixed :
  exists s,
    createCommentWithTarget mixedInput = Normal s
    /\ includes
         (lit "### Deleted Items" ++ LF
          ++ lit "  " ++ LF
          ++ lit "### `d1.png`" ++ LF
          ++ lit "       " ++ LF
          ++ lit "|  |" ++ LF
          ++ lit "|--|" ++ LF
          ++ lit "|![DeleteItem](https://github.com/owner/repo/blob/reg_actions/2023-01-01_4242_home/expected/d1.png?raw=true)|" ++ LF
          ++ lit "       " ++ LF
          ++ lit "  ") s = true.
Proof.
  destruct (createCommentWithTarget mixedInput) as [s|e] eqn:E;
    [|vm_compute in E; discriminate E].
  destruct (deleted_items_one_block_per_item mixedInput s E)
    as [[blocks [Hb Hi]] _]; [discriminate|].
  exists s. split; [reflexivity|].
  cbn [mixedInput mixedResult CreateCommentWithTargetInput.result
       Compare.deletedItems] in Hb.
  read_blocks Hb.
  apply includes_Contains. apply includes_Contains in Hi.
  refine (Contains_trans _ _ _ _ Hi).
  apply includes_Contains. vm_compute. reflexivity.
Defined.

(** The report block of [deletedOnlyInput], as it is written: two empty
    sections, then the deleted items. *)
Lemma report_block_of_deleted_only :
  exists s,
    createCommentWithTarget deletedOnlyInput = Normal s
    /\ Suffix
         (lit "<details>" ++ LF
          ++ lit "<summary>" ++ MEMO ++ lit " Report</summary>" ++ LF
          ++ LF
          ++ LF
          ++ lit "   " ++ LF
          ++ lit "   " ++ LF
          ++ lit "### Deleted Items" ++ LF
          ++ lit "  " ++ LF
          ++ lit "### `gone.png`" ++ LF
          ++ lit "       " ++ LF
          ++ lit "|  |" ++ LF
          ++ lit "|--|" ++ LF
          ++ lit "|![DeleteItem](https://github.com/owner/repo/blob/reg_actions/2023-01-01_4242_home/expected/gone.png?raw=true)|" ++ LF
          ++ lit "       " ++ LF
          ++ lit "  " ++ LF
          ++ lit "</details>" ++ LF) s.
Proof.
  destruct (createCommentWithTarget deletedOnlyInput) as [s|e] eqn:E;
    [|vm_compute in E; discriminate E].
  destruct (report_block_of_sections deletedOnlyInput s E)
    as [d [n [x [_ [_ [Hdeleted [Hsuffix [Hd [Hn _]]]]]]]]].
  exists s. split; [reflexivity|].
  assert (d = []) as -> by (apply Hd; reflexivity).
  assert (n = []) as -> by (apply Hn; reflexivity).
  vm_compute in Hdeleted. apply Normal_inj in Hdeleted. subst x.
  exact Hsuffix.
Defined.

(** [deletedOnlyInput] shows the passed badge without the celebration. *)
Lemma passed_badge_of_deleted_only :
  exists s,
    createCommentWithTarget deletedOnlyInput = Normal s
    /\ includes
         (passedBadge ++ LF ++ LF ++ lit "## ArtifactName: `home`" ++ LF
          ++ LF ++ lit "Check out the report [here](") s = true.
Proof.
  eexists. split; [vm_compute; reflexivity|].
  refine (proj2 (proj2 (deleted_only_passed_badge_plain_header
                          deletedOnlyInput _ eq_refl eq_refl _ _))).
  - discriminate.
  - vm_compute. reflexivity.
Defined.

(** [owner/repo/extra/more] is read as [owner/repo]. *)
Lemma extra_segments_of_mixed :
  createCommentWithTarget
    (withFullName (lit "owner/repo/extra/more") mixedInput)
  = createCommentWithTarget mixedInput.
Proof.
  apply (full_name_extra_segments_ignored mixedInput (lit "owner")
           (lit "repo") (lit "extra/more"));
    apply without_unit; vm_compute; reflexivity.
Defined.

(** [passedOnlyInput] on another branch, run and day. *)
Lemma storage_of_passed_only :
  createCommentWithTarget
    (withStorage (lit "other-branch") (OtherNumber (lit "1e+21"))
       (lit "1999-12-31") passedOnlyInput)
  = createCommentWithTarget passedOnlyInput.
Proof.
  apply (storage_fields_unread_without_images passedOnlyInput);
    reflexivity.
Defined.

(** [mixedInput] with its items moved to other directories. *)
Lemma moved_items_of_mixed :
  createCommentWithTarget (withResult movedResult mixedInput)
  = createCommentWithTarget mixedInput.
Proof.
  apply (items_read_by_base_name mixedInput movedResult);
    vm_compute; reflexivity.
Defined.

(** The base name of [dir/sub/My File.png//]. *)
Lemma basename_of_sample_path :
  basename (lit "dir/sub/My File.png//") = lit "My File.png"
  /\ basename (lit "My File.png//") = lit "My File.png".
Proof.
  apply (basename_drops_directory (lit "dir/sub") (lit "My File.png")
           (lit "//")).
  - apply without_unit. vm_compute. reflexivity.
  - discriminate.
  - reflexivity.
Defined.

(** [mixedInput] has well-formed items. *)
Lemma mixed_is_returned :
  exists s, createCommentWithTarget mixedInput = Normal s.
Proof.
  apply (returns_for_well_formed_items mixedInput).
  repeat constructor.
Defined.

(** The encoding of [My File.png] has no space. *)
Lemma encoded_sample_name :
  ~ In 32%N (lit "My%20File.png").
Proof.
  refine (proj2 (proj2 (proj2 (proj2
            (encoded_name_units (lit "My File.png") (lit "My%20File.png")
               _ _))))); vm_compute; reflexivity.
Defined.

(** The encoding of a name with a memo sign, before its extension. *)
Lemma encoded_sample_concat :
  encodeURIComponent (MEMO ++ lit ".png")
  = Normal (lit "%F0%9F%93%9D" ++ lit ".png").
Proof.
  refine (proj1 (encodeURIComponent_concat MEMO (lit ".png") _ _ _ _));
    vm_compute; reflexivity.
Defined.

(** [plainColdStartInput] has no report page: no sentence about one. *)
Lemma no_sentence_of_plain_cold_start :
  includes (lit "Check out the report")
    (createCommentWithoutTarget plainColdStartInput) = false.
Proof.
  pose proof (without_target_text plainColdStartInput) as H.
  cbv zeta in H.
  change (CreateCommentWithoutTargetInput.customReportPage
            plainColdStartInput) with (@None jsstring) in H.
  destruct H as [_ [_ [_ H]]].
  apply H. apply without_unit. vm_compute. reflexivity.
Defined.
